(** * tui.tree: the Draggable feature (src/js/features/draggable.js)

    A shallow embedding of the drag-and-drop logic of the tree widget.
    The feature object ([this]) becomes the record [Draggable]; the parts
    of the browser it mutates (class attributes, the two positioned
    elements, the timer table) together with the feature object make up a
    [World] that every handler transforms.  The tree widget and the
    document are only read, through the record [Host]; the two calls that
    ask the tree to change, [tree.move] and [tree.open], are recorded in
    an effect log in the order they are issued.

    Coordinates are rationals (the numbers in a DOMRect need not be
    integers), sibling indices and the delay are integers, time is counted
    in whole milliseconds. *)

From Stdlib Require Import ZArith QArith Lqa Lia Ascii String.
From stdpp Require Import gmap strings list.

(** ** JavaScript values that stand for node ids *)

(** A node id is a string; the places that hold one can also hold [null]
    (the initial value of [currentNodeId]) or [undefined] (an array read
    out of range). *)
Inductive jsid : Type :=
  | JNull
  | JUndefined
  | JStr (s : string).

#[global] Instance jsid_eq_dec : EqDecision jsid.
Proof. solve_decision. Defined.

(** [if (v)]: [null], [undefined] and the empty string are falsy. *)
Definition truthy (v : jsid) : bool :=
  match v with
  | JStr s => negb (String.eqb s EmptyString)
  | JNull | JUndefined => false
  end.

(** [arr[i]] on an array of ids: [undefined] outside the array. *)
Definition array_at (arr : list string) (i : Z) : jsid :=
  if (i <? 0)%Z then JUndefined
  else match arr !! Z.to_nat i with
       | Some s => JStr s
       | None => JUndefined
       end.

(** [tui.util.inArray]: position of the first occurrence, or [-1]. *)
Fixpoint inArray_from (i : Z) (x : string) (arr : list string) : Z :=
  match arr with
  | [] => (-1)%Z
  | a :: rest => if String.eqb a x then i else inArray_from (i + 1)%Z x rest
  end.

Definition inArray (x : string) (arr : list string) : Z := inArray_from 0%Z x arr.

Definition upper_ascii (c : ascii) : ascii :=
  let n := nat_of_ascii c in
  if (97 <=? n)%nat && (n <=? 122)%nat then ascii_of_nat (n - 32) else c.

(** [String.prototype.toUpperCase] on ASCII text. *)
Fixpoint toUpperCase (s : string) : string :=
  match s with
  | EmptyString => EmptyString
  | String c rest => String (upper_ascii c) (toUpperCase rest)
  end.

(** ** Geometry *)

Record Rect := mkRect {
  rect_top : Q;
  rect_bottom : Q;
  rect_left : Q;
  rect_right : Q
}.

Record MousePos := mkPos { pos_x : Q; pos_y : Q }.

(** [options.lineBoundary] *)
Record LineBoundary := mkBoundary { lb_top : Q; lb_bottom : Q }.

(** The two values [_getBoundaryType] can produce; it returns [undefined]
    ([None] here) when neither applies. *)
Inductive BoundaryType : Type := top | bottom.

#[global] Instance BoundaryType_eq_dec : EqDecision BoundaryType.
Proof. solve_decision. Defined.

(** [targetPos[boundaryType]] *)
Definition rect_at (r : Rect) (b : BoundaryType) : Q :=
  match b with top => rect_top r | bottom => rect_bottom r end.

(** [a < b] on numbers, as a boolean. *)
Definition Qltb (a b : Q) : bool := (Qnum a * QDen b <? Qnum b * QDen a)%Z.

(** ** The document *)

(** A handle on a DOM element. *)
Abbreviation Element := string.

Inductive Display : Type := DisplayNone | DisplayDefault | DisplayBlock.

(** The inline style of an absolutely positioned element, as far as the
    feature writes it. *)
Record Style := mkStyle { display : Display; style_top : Q; style_left : Q }.

(** The class attribute of every element, already split into names. *)
Abbreviation ClassStore := (gmap Element (list string)).

(** Modelled from the spec: [util.getClass] (util.js is not among the
    sources).  The spec speaks of a hover class state that a node has or
    loses; here it is a name in the class attribute of the element. *)
Definition getClass (dom : ClassStore) (e : Element) : list string :=
  default [] (dom !! e).

(** Modelled from the spec: [util.hasClass] (util.js is not among the
    sources): the element has the name in its class attribute. *)
Definition hasClass (dom : ClassStore) (e : Element) (c : string) : bool :=
  bool_decide (c ∈ getClass dom e).

(** Modelled from the spec: [util.addClass] (util.js is not among the
    sources): apply the class state; nothing happens on a missing element
    (the feature calls it on [null]) or when the name is already there. *)
Definition addClass (e : option Element) (c : string) (dom : ClassStore) : ClassStore :=
  match e with
  | None => dom
  | Some el => if hasClass dom el c then dom else <[el := getClass dom el ++ [c]]> dom
  end.

(** Modelled from the spec: [util.removeClass] (util.js is not among the
    sources): clear the class state; nothing happens on a missing
    element. *)
Definition removeClass (e : option Element) (c : string) (dom : ClassStore) : ClassStore :=
  match e with
  | None => dom
  | Some el => if hasClass dom el c
               then <[el := filter (λ k, k ≠ c) (getClass dom el)]> dom
               else dom
  end.

Record MouseEvent := mkEvent {
  target : Element;        (* util.getTarget(event) *)
  mousePos : MousePos;     (* util.getMousePos(event) *)
  isRightButton : bool     (* util.isRightButton(event) *)
}.

(** ** The tree widget and the document, as the feature reads them *)

Record Host := mkHost {
  getNodeIdFromElement : Element -> jsid;
  getRootNodeId : jsid;
  getChildIds : jsid -> list string;
  getNodeIndex : jsid -> Z;
  getParentId : jsid -> jsid;
  isLeaf : string -> bool;
  (* tree.enabledFeatures.Editable && tree.enabledFeatures.Editable.inputElement *)
  isEditing : bool;
  getElementById : jsid -> option Element;
  (* util.getElementsByClassName(document.getElementById(id),
       tree.classNames.textClass)[0].innerHTML; None when there is no such
     element, in which case the read throws *)
  nodeText : jsid -> option string;
  getBoundingClientRect : Element -> Rect;
  tagName : Element -> string;
  (* tree.rootElement.getBoundingClientRect() *)
  rootRect : Rect;
  (* util.getElementTop(tree.rootElement.parentNode) *)
  parentTop : Q
}.

(** The calls that hand work to the tree. *)
Inductive Effect : Type :=
  | TreeMove (nodeId newParentId : jsid) (index : Z)
  | TreeOpen (nodeId : string).

(** ** Options *)

(** The [options] argument of the constructor: every key may be absent. *)
Record Options := mkOptions {
  opt_useHelper : option bool;
  opt_helperPos : option MousePos;
  opt_rejectedTagNames : option (list string);
  opt_rejectedClassNames : option (list string);
  opt_autoOpenDelay : option Z;
  opt_isSortable : option bool;
  opt_hoverClassName : option string;
  opt_lineClassName : option string;
  opt_helperClassName : option string;
  opt_lineBoundary : option LineBoundary
}.

Definition defaultOptions : Options := {|
  opt_useHelper := Some true;
  opt_helperPos := Some (mkPos 5 2);
  opt_rejectedTagNames := None;
  opt_rejectedClassNames := None;
  opt_autoOpenDelay := Some 1500%Z;
  opt_isSortable := Some false;
  opt_hoverClassName := Some "tui-tree-hover";
  opt_lineClassName := Some "tui-tree-line";
  opt_helperClassName := Some "tui-tree-drop";
  opt_lineBoundary := Some (mkBoundary 4 4)
|}.

Definition dragItemClassName : string := "tui-tree-drag".

Definition rejectedTagNames0 : list string := ["INPUT"; "BUTTON"; "UL"].

(** One key of [tui.util.extend]: the later object wins when it has the key. *)
Definition override {A} (later earlier : option A) : option A :=
  match later with
  | Some v => Some v
  | None => earlier
  end.

(** [tui.util.extend({}, defaults, options)]: a key of [options] replaces
    the default as a whole (the copy is shallow). *)
Definition extend (defaults o : Options) : Options := {|
  opt_useHelper := override (opt_useHelper o) (opt_useHelper defaults);
  opt_helperPos := override (opt_helperPos o) (opt_helperPos defaults);
  opt_rejectedTagNames := override (opt_rejectedTagNames o) (opt_rejectedTagNames defaults);
  opt_rejectedClassNames := override (opt_rejectedClassNames o) (opt_rejectedClassNames defaults);
  opt_autoOpenDelay := override (opt_autoOpenDelay o) (opt_autoOpenDelay defaults);
  opt_isSortable := override (opt_isSortable o) (opt_isSortable defaults);
  opt_hoverClassName := override (opt_hoverClassName o) (opt_hoverClassName defaults);
  opt_lineClassName := override (opt_lineClassName o) (opt_lineClassName defaults);
  opt_helperClassName := override (opt_helperClassName o) (opt_helperClassName defaults);
  opt_lineBoundary := override (opt_lineBoundary o) (opt_lineBoundary defaults)
|}.

(** ** The feature object *)

Record Draggable := mkDraggable {
  (* set once by the constructor *)
  rejectedTagNames : list string;
  rejectedClassNames : list string;
  useHelper : bool;
  helperPos : MousePos;
  autoOpenDelay : Z;
  isSortable : bool;
  hoverClassName : string;
  lineClassName : string;
  lineBoundary : LineBoundary;
  helperClassName : string;
  (* the drag in progress *)
  currentNodeId : jsid;
  hoveredElement : option Element;
  movingLineType : option BoundaryType;
  timer : option nat
}.

Definition set_currentNodeId (v : jsid) (d : Draggable) : Draggable :=
  mkDraggable (rejectedTagNames d) (rejectedClassNames d) (useHelper d) (helperPos d)
    (autoOpenDelay d) (isSortable d) (hoverClassName d) (lineClassName d)
    (lineBoundary d) (helperClassName d)
    v (hoveredElement d) (movingLineType d) (timer d).

Definition set_hoveredElement (v : option Element) (d : Draggable) : Draggable :=
  mkDraggable (rejectedTagNames d) (rejectedClassNames d) (useHelper d) (helperPos d)
    (autoOpenDelay d) (isSortable d) (hoverClassName d) (lineClassName d)
    (lineBoundary d) (helperClassName d)
    (currentNodeId d) v (movingLineType d) (timer d).

Definition set_movingLineType (v : option BoundaryType) (d : Draggable) : Draggable :=
  mkDraggable (rejectedTagNames d) (rejectedClassNames d) (useHelper d) (helperPos d)
    (autoOpenDelay d) (isSortable d) (hoverClassName d) (lineClassName d)
    (lineBoundary d) (helperClassName d)
    (currentNodeId d) (hoveredElement d) v (timer d).

Definition set_timer (v : option nat) (d : Draggable) : Draggable :=
  mkDraggable (rejectedTagNames d) (rejectedClassNames d) (useHelper d) (helperPos d)
    (autoOpenDelay d) (isSortable d) (hoverClassName d) (lineClassName d)
    (lineBoundary d) (helperClassName d)
    (currentNodeId d) (hoveredElement d) (movingLineType d) v.

(** ** Timers *)

(** A pending [setTimeout(function() { tree.open(nodeId); }, delay)]. *)
Record Timer := mkTimer { handle : nat; due : nat; openNode : string }.

(** ** Everything a handler can change *)

Record World := mkWorld {
  self : Draggable;
  classes : ClassStore;
  helperHTML : string;         (* this.helperElement.innerHTML *)
  helperStyle : Style;         (* this.helperElement.style *)
  lineStyle : Style;           (* this.lineElement.style *)
  timers : list Timer;         (* pending timers, oldest first *)
  nextHandle : nat;            (* the id the next setTimeout returns *)
  now : nat;                   (* milliseconds since construction *)
  listening : bool;            (* mousemove and mouseup are bound on the tree *)
  effects : list Effect        (* calls made on the tree, oldest first *)
}.

Definition set_self (v : Draggable) (w : World) : World :=
  mkWorld v (classes w) (helperHTML w) (helperStyle w) (lineStyle w) (timers w)
    (nextHandle w) (now w) (listening w) (effects w).

Definition set_classes (v : ClassStore) (w : World) : World :=
  mkWorld (self w) v (helperHTML w) (helperStyle w) (lineStyle w) (timers w)
    (nextHandle w) (now w) (listening w) (effects w).

Definition set_helperHTML (v : string) (w : World) : World :=
  mkWorld (self w) (classes w) v (helperStyle w) (lineStyle w) (timers w) (nextHandle w)
    (now w) (listening w) (effects w).

Definition set_helperStyle (v : Style) (w : World) : World :=
  mkWorld (self w) (classes w) (helperHTML w) v (lineStyle w) (timers w) (nextHandle w)
    (now w) (listening w) (effects w).

Definition set_lineStyle (v : Style) (w : World) : World :=
  mkWorld (self w) (classes w) (helperHTML w) (helperStyle w) v (timers w)
    (nextHandle w) (now w) (listening w) (effects w).

Definition set_timers (v : list Timer) (w : World) : World :=
  mkWorld (self w) (classes w) (helperHTML w) (helperStyle w) (lineStyle w) v
    (nextHandle w) (now w) (listening w) (effects w).

Definition set_nextHandle (v : nat) (w : World) : World :=
  mkWorld (self w) (classes w) (helperHTML w) (helperStyle w) (lineStyle w) (timers w) v
    (now w) (listening w) (effects w).

Definition set_now (v : nat) (w : World) : World :=
  mkWorld (self w) (classes w) (helperHTML w) (helperStyle w) (lineStyle w) (timers w)
    (nextHandle w) v (listening w) (effects w).

Definition set_listening (v : bool) (w : World) : World :=
  mkWorld (self w) (classes w) (helperHTML w) (helperStyle w) (lineStyle w) (timers w)
    (nextHandle w) (now w) v (effects w).

Definition emit (e : Effect) (w : World) : World :=
  mkWorld (self w) (classes w) (helperHTML w) (helperStyle w) (lineStyle w) (timers w)
    (nextHandle w) (now w) (listening w) (effects w ++ [e]).

(** [this.f = v] *)
Definition update (f : Draggable -> Draggable) (w : World) : World :=
  set_self (f (self w)) w.

(** The timeout argument of [setTimeout] is a 32-bit signed integer: the
    number given is wrapped to 32 bits (ToInt32). *)
Definition toInt32 (z : Z) : Z := ((z + 2 ^ 31) mod 2 ^ 32 - 2 ^ 31)%Z.

(** The milliseconds a timer waits for a given delay: the delay as a
    32-bit integer, a negative one counting as zero. *)
Definition timerDelay (delay : Z) : nat := Z.to_nat (toInt32 delay).

(** [setTimeout(function() { tree.open(nodeId); }, delay)]: the new timer
    and its handle. *)
Definition setTimeout (nodeId : string) (delay : Z) (w : World) : nat * World :=
  let h := nextHandle w in
  (h, set_nextHandle (S h)
        (set_timers (timers w ++ [mkTimer h (now w + timerDelay delay) nodeId]) w)).

(** [clearTimeout(t)]: nothing happens for [null] or for a timer that is
    no longer pending. *)
Definition clearTimeout (t : option nat) (w : World) : World :=
  match t with
  | None => w
  | Some h => set_timers (filter (λ tm, handle tm ≠ h) (timers w)) w
  end.

(** One millisecond passes: the timers that have come due run, oldest
    first, and leave the table. *)
Definition tick (w : World) : World :=
  let t := S (now w) in
  let fired := filter (λ tm, due tm ≤ t) (timers w) in
  let pending := filter (λ tm, ¬ (due tm ≤ t)) (timers w) in
  fold_left (λ acc tm, emit (TreeOpen (openNode tm)) acc) fired
    (set_timers pending (set_now t w)).

(** ** The constructor *)

(** [init(tree, options)].  [dom] is the class attribute of the elements
    of the page at that moment.  Reading a key that [extend] left absent
    gives [undefined]: no tag or class name for the two lists (the entry
    [concat] adds for it equals no string), the falsy value for the rest
    (never the case for a key that has a default).  Both positioned
    elements start hidden; mousedown is bound on the tree from here on. *)
Definition init (dom : ClassStore) (options : Options) : World :=
  let options := extend defaultOptions options in
  {| self := {|
       rejectedTagNames := rejectedTagNames0 ++ default [] (opt_rejectedTagNames options);
       rejectedClassNames := [] ++ default [] (opt_rejectedClassNames options);
       useHelper := default false (opt_useHelper options);
       helperPos := default (mkPos 0 0) (opt_helperPos options);
       autoOpenDelay := default 0%Z (opt_autoOpenDelay options);
       isSortable := default false (opt_isSortable options);
       hoverClassName := default EmptyString (opt_hoverClassName options);
       lineClassName := default EmptyString (opt_lineClassName options);
       lineBoundary := default (mkBoundary 0 0) (opt_lineBoundary options);
       helperClassName := default EmptyString (opt_helperClassName options);
       currentNodeId := JNull;
       hoveredElement := None;
       movingLineType := None;
       timer := None
     |};
     classes := dom;
     helperHTML := EmptyString;
     helperStyle := mkStyle DisplayNone 0 0;
     lineStyle := mkStyle DisplayNone 0 0;
     timers := [];
     nextHandle := 1;
     now := 0;
     listening := false;
     effects := []
  |}.

(** ** Drag eligibility *)

(** [str.split(/\s+/)] of a class attribute: an empty attribute still
    gives one (empty) name. *)
Definition split_classNames (names : list string) : list string :=
  match names with
  | [] => [EmptyString]
  | _ => names
  end.

(** The [forEach] of [_isNotDraggable]: [result] is overwritten at every
    class name, and the iteration stops as soon as the callback returns
    [false], that is when a name is rejected. *)
Fixpoint forEach_rejected (rejected classNames : list string) (result : option bool)
  : option bool :=
  match classNames with
  | [] => result
  | className :: rest =>
      let result := negb (inArray className rejected =? -1)%Z in
      if negb result then forEach_rejected rejected rest (Some result)
      else Some result
  end.

Definition _isNotDraggable (h : Host) (w : World) (tgt : Element) : bool :=
  let tag := toUpperCase (tagName h tgt) in
  let classNames := split_classNames (getClass (classes w) tgt) in
  if negb (inArray tag (rejectedTagNames (self w)) =? -1)%Z then true
  else default false (forEach_rejected (rejectedClassNames (self w)) classNames None).

(** ** Helpers on the page *)

Definition _setClassNameOnDragItem (h : Host) (type : string) (w : World) : World :=
  let dragItemElement := getElementById h (currentNodeId (self w)) in
  if String.eqb type "add"
  then set_classes (addClass dragItemElement dragItemClassName (classes w)) w
  else set_classes (removeClass dragItemElement dragItemClassName (classes w)) w.

Definition _changeHelperPosition (h : Host) (mouse : MousePos) (w : World) : World :=
  let pos := rootRect h in
  set_helperStyle
    (mkStyle DisplayDefault
       (pos_y mouse - rect_top pos + pos_y (helperPos (self w)))
       (pos_x mouse - rect_left pos + pos_x (helperPos (self w))))
    w.

(** ** Containment and boundary zones *)

Definition _isContain (d : Draggable) (targetPos : Rect) (mouse : MousePos) : bool :=
  let top := if isSortable d then (rect_top targetPos + lb_top (lineBoundary d))%Q
             else rect_top targetPos in
  let bottom := if isSortable d then (rect_bottom targetPos - lb_bottom (lineBoundary d))%Q
                else rect_bottom targetPos in
  if Qltb (rect_left targetPos) (pos_x mouse) &&
     Qltb (pos_x mouse) (rect_right targetPos) &&
     Qltb top (pos_y mouse) && Qltb (pos_y mouse) bottom
  then true
  else false.

Definition _getBoundaryType (d : Draggable) (targetPos : Rect) (mouse : MousePos)
  : option BoundaryType :=
  if Qltb (pos_y mouse) (rect_top targetPos + lb_top (lineBoundary d))
  then Some top
  else if Qltb (rect_bottom targetPos - lb_bottom (lineBoundary d)) (pos_y mouse)
  then Some bottom
  else None.

Definition _drawBoundaryLine (h : Host) (targetPos : Rect)
    (boundaryType : option BoundaryType) (w : World) : World :=
  match boundaryType with
  | Some b =>
      let scrollTop := parentTop h in
      update (set_movingLineType (Some b))
        (set_lineStyle
           (mkStyle DisplayBlock (rect_at targetPos b - scrollTop) (style_left (lineStyle w)))
           w)
  | None =>
      update (set_movingLineType None)
        (set_lineStyle
           (mkStyle DisplayNone (style_top (lineStyle w)) (style_left (lineStyle w)))
           w)
  end.

(** ** Hover and the auto-open timer *)

Definition _hover (h : Host) (nodeId : string) (w : World) : World :=
  let w := set_classes
             (addClass (hoveredElement (self w)) (hoverClassName (self w)) (classes w)) w in
  if isLeaf h nodeId then w
  else
    let '(t, w) := setTimeout nodeId (autoOpenDelay (self w)) w in
    update (set_timer (Some t)) w.

Definition _unhover (w : World) : World :=
  let w := clearTimeout (timer (self w)) w in
  let w := set_classes
             (removeClass (hoveredElement (self w)) (hoverClassName (self w)) (classes w)) w in
  let w := update (set_hoveredElement None) w in
  update (set_timer None) w.

(** [_applyMoveAction(nodeId, mousePos)].  When the document has no
    element with that id, reading its rectangle throws and the handler
    stops where it is. *)
Definition _applyMoveAction (h : Host) (nodeId : string) (mouse : MousePos) (w : World)
  : World :=
  match getElementById h (JStr nodeId) with
  | None => w
  | Some currentElement =>
      let targetPos := getBoundingClientRect h currentElement in
      let hasCls := hasClass (classes w) currentElement (hoverClassName (self w)) in
      let isContain := _isContain (self w) targetPos mouse in
      let w :=
        if negb (bool_decide (is_Some (hoveredElement (self w)))) && isContain
        then _hover h nodeId (update (set_hoveredElement (Some currentElement)) w)
        else if negb hasCls || (hasCls && negb isContain)
        then _unhover w
        else w in
      if isSortable (self w)
      then _drawBoundaryLine h targetPos (_getBoundaryType (self w) targetPos mouse) w
      else w
  end.

(** ** The drag session *)

(** [_setHelper(contents)]; the first label element inside the helper is
    then taken out, which the model does not show. *)
Definition _setHelper (contents : string) (w : World) : World :=
  set_helperHTML contents w.

(** [_onMousedown(event)].  When the text of the picked node cannot be
    read the handler throws before it reaches [tree.on]; [tree.on] binds
    the two other handlers. *)
Definition _onMousedown (h : Host) (event : MouseEvent) (w : World) : World :=
  let tgt := target event in
  if isRightButton event || _isNotDraggable h w tgt || isEditing h then w
  else
    let w := update (set_currentNodeId (getNodeIdFromElement h tgt)) w in
    if useHelper (self w)
    then match nodeText h (currentNodeId (self w)) with
         | Some innerHTML => set_listening true (_setHelper innerHTML w)
         | None => w
         end
    else set_listening true w.

Definition _onMousemove (h : Host) (event : MouseEvent) (w : World) : World :=
  let mouse := mousePos event in
  let tgt := target event in
  if negb (useHelper (self w)) then w
  else
    let w := _setClassNameOnDragItem h "add" w in
    let w := _changeHelperPosition h mouse w in
    let nodeId := getNodeIdFromElement h tgt in
    match nodeId with
    | JStr s => if truthy nodeId then _applyMoveAction h s mouse w else w
    | JNull | JUndefined => w
    end.

Definition _getTargetNodeId (h : Host) (d : Draggable) (tgt : Element) : jsid :=
  let movingType := movingLineType d in
  let nodeId := getNodeIdFromElement h tgt in
  if truthy nodeId then nodeId
  else
    let childIds := getChildIds h (getRootNodeId h) in
    if bool_decide (movingType = Some top)
    then array_at childIds 0
    else array_at childIds (Z.of_nat (length childIds) - 1).

Definition _getIndexToInsert (h : Host) (d : Draggable) (nodeId : jsid) : Z :=
  let movingType := movingLineType d in
  match movingType with
  | None => (-1)%Z
  | Some t =>
      let index := getNodeIndex h nodeId in
      if bool_decide (t = bottom) then (index + 1)%Z else index
  end.

Definition _reset (h : Host) (w : World) : World :=
  let w := if isSortable (self w)
           then set_lineStyle
                  (mkStyle DisplayNone (style_top (lineStyle w)) (style_left (lineStyle w))) w
           else w in
  let w := match hoveredElement (self w) with
           | Some el =>
               update (set_hoveredElement None)
                 (set_classes (removeClass (Some el) (hoverClassName (self w)) (classes w)) w)
           | None => w
           end in
  let w := _setClassNameOnDragItem h "remove" w in
  let w := set_helperStyle
             (mkStyle DisplayNone (style_top (helperStyle w)) (style_left (helperStyle w))) w in
  let w := update (set_currentNodeId JNull) w in
  let w := update (set_movingLineType None) w in
  set_listening false w.

Definition _onMouseup (h : Host) (event : MouseEvent) (w : World) : World :=
  let nodeId := currentNodeId (self w) in
  let tgt := target event in
  let targetId := _getTargetNodeId h (self w) tgt in
  let index := _getIndexToInsert h (self w) targetId in
  let newParentId := if (index =? -1)%Z then targetId else getParentId h targetId in
  let w := emit (TreeMove nodeId newParentId index) w in
  _reset h w.

(** ** What the page delivers *)

Inductive Input : Type :=
  | Mousedown (event : MouseEvent)
  | Mousemove (event : MouseEvent)
  | Mouseup (event : MouseEvent)
  | Elapse (ms : nat).

(** One call of a handler, or time passing.  Mousedown is bound from
    construction on; mousemove and mouseup reach the feature only between
    [tree.on] and [tree.off].  [tree.on] adds a binding at every accepted
    mousedown, so after a second mousedown within a drag one mousemove
    event is several such calls in a row ([mousemoveEvent] below). *)
Definition step (h : Host) (w : World) (i : Input) : World :=
  match i with
  | Mousedown event => _onMousedown h event w
  | Mousemove event => if listening w then _onMousemove h event w else w
  | Mouseup event => if listening w then _onMouseup h event w else w
  | Elapse ms => Nat.iter ms tick w
  end.

Definition run (h : Host) (w : World) (inputs : list Input) : World :=
  fold_left (step h) inputs w.

(** One mousemove event while the handler is bound [bindings] times: the
    tree calls it once per binding, each call on the state the previous
    one left. *)
Definition mousemoveEvent (h : Host) (bindings : nat) (event : MouseEvent) (w : World)
  : World :=
  Nat.iter bindings (_onMousemove h event) w.

(** The [tree.open] calls in a log. *)
Definition opened (log : list Effect) : list string :=
  omap (λ e, match e with TreeOpen n => Some n | TreeMove _ _ _ => None end) log.

(** ** A small page used in the examples

    Three root-level nodes [a], [b], [c] stacked in rows of 20 pixels, [a]
    holding one child; [a-text] is the label inside [a] and [page] the
    background of the tree. *)
Definition demoHost : Host := {|
  getNodeIdFromElement := λ e,
    if String.eqb e "a" || String.eqb e "a-text" then JStr "a"
    else if String.eqb e "b" then JStr "b"
    else if String.eqb e "c" then JStr "c"
    else JStr EmptyString;
  getRootNodeId := JStr "root";
  getChildIds := λ n,
    if bool_decide (n = JStr "root") then ["a"; "b"; "c"]
    else if bool_decide (n = JStr "a") then ["a1"]
    else [];
  getNodeIndex := λ n,
    if bool_decide (n = JStr "a") then 0%Z
    else if bool_decide (n = JStr "b") then 1%Z
    else if bool_decide (n = JStr "c") then 2%Z
    else if bool_decide (n = JStr "a1") then 0%Z
    else (-1)%Z;
  getParentId := λ n,
    if bool_decide (n = JStr "a1") then JStr "a"
    else if bool_decide (n = JStr "root") then JUndefined
    else JStr "root";
  isLeaf := λ s, negb (String.eqb s "a");
  isEditing := false;
  getElementById := λ n,
    match n with
    | JStr s => if String.eqb s "a" || String.eqb s "b" || String.eqb s "c"
                then Some s else None
    | JNull | JUndefined => None
    end;
  nodeText := λ n,
    match n with
    | JStr s => if String.eqb s "a" || String.eqb s "b" || String.eqb s "c"
                then Some ("node " +:+ s) else None
    | JNull | JUndefined => None
    end;
  getBoundingClientRect := λ e,
    if String.eqb e "a" then mkRect 0 20 0 100
    else if String.eqb e "b" then mkRect 20 40 0 100
    else if String.eqb e "c" then mkRect 40 60 0 100
    else mkRect 0 60 0 100;
  tagName := λ e,
    if String.eqb e "page" then "ul"
    else if String.eqb e "a-text" then "span"
    else "li";
  rootRect := mkRect 0 60 0 100;
  parentTop := 0
|}.

Definition noOptions : Options :=
  mkOptions None None None None None None None None None None.

Definition sortableOptions : Options :=
  mkOptions None None None None None (Some true) None None None None.

(** The pointer over the element [e] at [(x, y)], left button. *)
Definition pointer (e : Element) (x y : Q) : MouseEvent := mkEvent e (mkPos x y) false.

(** The parent and the index of the last [tree.move] in a log. *)
Definition lastDecision (log : list Effect) : option (jsid * Z) :=
  match last log with
  | Some (TreeMove _ newParentId index) => Some (newParentId, index)
  | Some (TreeOpen _) | None => None
  end.

(** Node [c] has been picked up on the demo page, in sortable mode. *)
Definition dragging_c : World :=
  run demoHost (init ∅ sortableOptions) [Mousedown (pointer "c" 10 50)].

(** ... and the pointer has moved to the top margin of [a], *)
Definition over_a_top : World :=
  run demoHost dragging_c [Mousemove (pointer "a-text" 10 2)].

(** ... to the middle of [a], *)
Definition over_a_middle : World :=
  run demoHost dragging_c [Mousemove (pointer "a-text" 10 10)].

(** ... to the bottom margin of [b]. *)
Definition over_b_bottom : World :=
  run demoHost dragging_c [Mousemove (pointer "b" 10 39)].

(** Options with a negative top margin, a negative delay, and with the
    helper switched off. *)
Definition negativeMarginOptions : Options :=
  mkOptions None None None None None (Some true) None None None
    (Some (mkBoundary (-1) 4)).

Definition negativeDelayOptions : Options :=
  mkOptions None None None None (Some (-1)%Z) None None None None None.

Definition noHelperOptions : Options :=
  mkOptions (Some false) None None None None (Some true) None None None None.

(** Node [c] picked up with [useHelper] off (and sortable mode on). *)
Definition dragging_c_no_helper : World :=
  run demoHost (init ∅ noHelperOptions) [Mousedown (pointer "c" 10 50)].

(** ** Invariants *)

(** The hovered element carries the hover class. *)
Definition hover_marked (w : World) : Prop :=
  forall e : Element,
    hoveredElement (self w) = Some e ->
    hasClass (classes w) e (hoverClassName (self w)) = true.

(** The elements that carry the hover class are the hovered element and
    no other. *)
Definition hover_exact (w : World) : Prop :=
  forall e : Element,
    hasClass (classes w) e (hoverClassName (self w)) = true <->
    hoveredElement (self w) = Some e.

(** At most one element is highlighted: an element that carries the hover
    class is the hovered element. *)
Definition hover_inv (w : World) : Prop :=
  forall e : Element,
    hasClass (classes w) e (hoverClassName (self w)) = true ->
    hoveredElement (self w) = Some e.

(** Every [tree.open] so far and every pending timer has a [setTimeout]
    of its own behind it. *)
Definition armed_inv (w : World) : Prop :=
  length (opened (effects w)) + length (timers w) < nextHandle w.

(** ** Sample runs *)

(** Pick up [c], hold it over the closed node [a] for a second, release it
    there, and wait another half second. *)
Definition quickDrop : list Input :=
  [Mousedown (pointer "c" 10 50); Mousemove (pointer "a-text" 10 10); Elapse 1000;
   Mouseup (pointer "a-text" 10 10); Elapse 500].

(** Hold [c] over [a] for a second, move on to [b], wait a second. *)
Definition hoverAndLeave : list Input :=
  [Mousedown (pointer "c" 10 50); Mousemove (pointer "a-text" 10 10); Elapse 1000;
   Mousemove (pointer "b" 10 30); Elapse 1000].

(** Hold [c] over [a] for 1600 milliseconds, with one more sample on the way. *)
Definition hoverAndStay : list Input :=
  [Mousedown (pointer "c" 10 50); Mousemove (pointer "a-text" 10 10); Elapse 800;
   Mousemove (pointer "a-text" 11 11); Elapse 800].


(** ** Bookkeeping for the properties of whole runs *)

(** What the constructor sets and no handler assigns. *)
Definition config (d : Draggable) :=
  (rejectedTagNames d, rejectedClassNames d, useHelper d, helperPos d, autoOpenDelay d,
   isSortable d, hoverClassName d, lineClassName d, lineBoundary d, helperClassName d).

(** The [tree.move] calls in a log. *)
Definition moves (log : list Effect) : list (jsid * jsid * Z) :=
  omap (λ e, match e with
             | TreeMove n p i => Some (n, p, i)
             | TreeOpen _ => None
             end) log.

Fixpoint count_mousedown (inputs : list Input) : nat :=
  match inputs with
  | [] => 0
  | Mousedown _ :: rest => S (count_mousedown rest)
  | _ :: rest => count_mousedown rest
  end.

Fixpoint count_mouseup (inputs : list Input) : nat :=
  match inputs with
  | [] => 0
  | Mouseup _ :: rest => S (count_mouseup rest)
  | _ :: rest => count_mouseup rest
  end.

(** A zone is recorded only in sortable mode and only while nothing is
    hovered. *)
Definition zone_inv (w : World) : Prop :=
  isSortable (self w) = false \/ is_Some (hoveredElement (self w)) ->
  movingLineType (self w) = None.

(** The boundary line is shown exactly while a zone is recorded. *)
Definition line_inv (w : World) : Prop :=
  display (lineStyle w) = DisplayBlock <-> is_Some (movingLineType (self w)).

(** Between drags nothing is hovered, no zone is recorded and the helper
    is hidden. *)
Definition idle_inv (w : World) : Prop :=
  listening w = false ->
  hoveredElement (self w) = None /\ movingLineType (self w) = None /\
  display (helperStyle w) = DisplayNone.

(** Handles of pending timers are older than the next handle. *)
Definition fresh_inv (w : World) : Prop :=
  forall tm : Timer, tm ∈ timers w -> handle tm < nextHandle w.

(** The demo page with a tree that has lost track of its nodes: every
    index it reports is -1. *)
Definition lostHost : Host := {|
  getNodeIdFromElement := getNodeIdFromElement demoHost;
  getRootNodeId := getRootNodeId demoHost;
  getChildIds := getChildIds demoHost;
  getNodeIndex := λ _, (-1)%Z;
  getParentId := getParentId demoHost;
  isLeaf := isLeaf demoHost;
  isEditing := isEditing demoHost;
  getElementById := getElementById demoHost;
  nodeText := nodeText demoHost;
  getBoundingClientRect := getBoundingClientRect demoHost;
  tagName := tagName demoHost;
  rootRect := rootRect demoHost;
  parentTop := parentTop demoHost
|}.

(** The demo page with a tree in which no node has children to show. *)
Definition leafHost : Host := {|
  getNodeIdFromElement := getNodeIdFromElement demoHost;
  getRootNodeId := getRootNodeId demoHost;
  getChildIds := getChildIds demoHost;
  getNodeIndex := getNodeIndex demoHost;
  getParentId := getParentId demoHost;
  isLeaf := λ _, true;
  isEditing := isEditing demoHost;
  getElementById := getElementById demoHost;
  nodeText := nodeText demoHost;
  getBoundingClientRect := getBoundingClientRect demoHost;
  tagName := tagName demoHost;
  rootRect := rootRect demoHost;
  parentTop := parentTop demoHost
|}.


(** What can come between picking a node up and releasing it. *)
Definition between (i : Input) : Prop :=
  match i with
  | Mousemove _ | Elapse _ => True
  | Mousedown _ | Mouseup _ => False
  end.


(** ** The life of the feature on the page

    The constructor also creates the helper and, in sortable mode, the
    line element, switches text selection off on the root element and
    binds mousedown; [destroy] undoes this.  These parts of [this] and of
    the page are kept beside the [World] the handlers work on. *)

(** [style[key]]: the property name a key stands for. *)
Definition propertyName (key : jsid) : string :=
  match key with
  | JStr s => s
  | JNull => "null"
  | JUndefined => "undefined"
  end.

Record Page := mkPage {
  world : World;
  userSelectPropertyKey : jsid;             (* this.userSelectPropertyKey *)
  userSelectPropertyValue : option string;  (* this.userSelectPropertyValue *)
  rootStyle : gmap string string;           (* tree.rootElement.style, by property *)
  selectstartPrevented : bool;   (* util.preventDefault listens to selectstart *)
  mousedownBound : bool;         (* _onMousedown is bound on the tree *)
  helperInPage : bool;           (* the helper element is in the document *)
  lineInPage : bool              (* the line element is in the document *)
}.

(** [style[key] = value]; assigning back [undefined], read from a property
    that was not there, leaves the property absent. *)
Definition setStyle (key : string) (value : option string) (st : gmap string string)
  : gmap string string :=
  match value with
  | Some v => <[key := v]> st
  | None => delete key st
  end.

(** [_preventTextSelection()]; [selectKey] is the style property found by
    [util.testProp] when the script was loaded. *)
Definition _preventTextSelection (selectKey : jsid) (p : Page) : Page :=
  mkPage (world p) selectKey (rootStyle p !! propertyName selectKey)
    (setStyle (propertyName selectKey) (Some "none") (rootStyle p))
    true (mousedownBound p) (helperInPage p) (lineInPage p).

Definition _restoreTextSelection (p : Page) : Page :=
  mkPage (world p) (userSelectPropertyKey p) (userSelectPropertyValue p)
    (if truthy (userSelectPropertyKey p)
     then setStyle (propertyName (userSelectPropertyKey p)) (userSelectPropertyValue p)
            (rootStyle p)
     else rootStyle p)
    false (mousedownBound p) (helperInPage p) (lineInPage p).

Definition _attachMousedown (selectKey : jsid) (p : Page) : Page :=
  let p := _preventTextSelection selectKey p in
  mkPage (world p) (userSelectPropertyKey p) (userSelectPropertyValue p) (rootStyle p)
    (selectstartPrevented p) true (helperInPage p) (lineInPage p).

(** [tree.off(this)] unbinds every handler of the feature. *)
Definition _detachMousedown (p : Page) : Page :=
  mkPage (set_listening false (world p)) (userSelectPropertyKey p)
    (userSelectPropertyValue p) (rootStyle p) (selectstartPrevented p) false
    (helperInPage p) (lineInPage p).

(** The constructor as a whole: [init] on the fields the handlers use,
    then [_initHelper], [_initMovingLine] in sortable mode, and
    [_attachMousedown]. *)
Definition construct (selectKey : jsid) (dom : ClassStore) (st : gmap string string)
    (options : Options) : Page :=
  let w := init dom options in
  _attachMousedown selectKey
    (mkPage w JNull None st false false true (isSortable (self w))).

Definition destroy (p : Page) : Page :=
  let p := mkPage (world p) (userSelectPropertyKey p) (userSelectPropertyValue p)
             (rootStyle p) (selectstartPrevented p) (mousedownBound p) false false in
  let p := _restoreTextSelection p in
  _detachMousedown p.

(** An input reaches the handlers of a page: mousedown while it is bound. *)
Definition deliver (h : Host) (p : Page) (i : Input) : Page :=
  let run_it := mkPage (step h (world p) i) (userSelectPropertyKey p)
                  (userSelectPropertyValue p) (rootStyle p) (selectstartPrevented p)
                  (mousedownBound p) (helperInPage p) (lineInPage p) in
  match i with
  | Mousedown _ => if mousedownBound p then run_it else p
  | Mousemove _ | Mouseup _ | Elapse _ => run_it
  end.


(** A mousedown with the right button, or any other input. *)
Definition right_button_down (i : Input) : Prop :=
  match i with
  | Mousedown event => isRightButton event = true
  | Mousemove _ | Mouseup _ | Elapse _ => True
  end.

(** * Properties *)

(** ** Numbers *)

Lemma Qltb_lt (a b : Q) : Qltb a b = true <-> (a < b)%Q.
Proof. unfold Qltb, Qlt. apply Z.ltb_lt. Qed.

Lemma Qltb_ge (a b : Q) : Qltb a b = false <-> (b <= a)%Q.
Proof. unfold Qltb, Qle. apply Z.ltb_ge. Qed.

(** ** Zone classification *)

Section Zone.
Variables (d : Draggable) (rect : Rect) (mouse : MousePos).

Let y := pos_y mouse.
Let marginTop := lb_top (lineBoundary d).
Let marginBottom := lb_bottom (lineBoundary d).

Lemma zone_top :
  (y < rect_top rect + marginTop)%Q -> _getBoundaryType d rect mouse = Some top.
Proof.
  intros Hy. unfold _getBoundaryType.
  apply Qltb_lt in Hy. subst y marginTop. now rewrite Hy.
Qed.

Lemma zone_bottom :
  (rect_top rect + marginTop <= y)%Q -> (rect_bottom rect - marginBottom < y)%Q ->
  _getBoundaryType d rect mouse = Some bottom.
Proof.
  intros Ht Hb. unfold _getBoundaryType.
  apply Qltb_ge in Ht. apply Qltb_lt in Hb. subst y marginTop marginBottom.
  now rewrite Ht, Hb.
Qed.

Lemma zone_none :
  (rect_top rect + marginTop <= y)%Q -> (y <= rect_bottom rect - marginBottom)%Q ->
  _getBoundaryType d rect mouse = None.
Proof.
  intros Ht Hb. unfold _getBoundaryType.
  apply Qltb_ge in Ht, Hb. subst y marginTop marginBottom.
  now rewrite Ht, Hb.
Qed.
End Zone.

(** The first test wins: in a rectangle lower than the top margin the
    bottom edge is still in the top zone. *)
Example zone_short_rect :
  _getBoundaryType (self (init ∅ sortableOptions)) (mkRect 0 2 0 100) (mkPos 10 2)
  = Some top.
Proof. reflexivity. Qed.

(** C3, as stated, fails: with both margins 4 and a rectangle from 0 to 2,
    the pointer on the bottom edge ([y = rect.bottom]) is classified Top,
    not Bottom, and the midpoint ([y = 1]) is classified Top, not None. *)
Lemma C3_counterexample :
  lineBoundary (self (init ∅ sortableOptions)) = mkBoundary 4 4 /\
  _getBoundaryType (self (init ∅ sortableOptions)) (mkRect 0 2 0 100)
    (mkPos 10 (rect_bottom (mkRect 0 2 0 100))) <> Some bottom /\
  _getBoundaryType (self (init ∅ sortableOptions)) (mkRect 0 2 0 100)
    (mkPos 10 ((0 + 2) / 2)) <> None.
Proof. repeat split; vm_compute; discriminate. Qed.

(** C3 (amended): the zone is a total function of the pointer's [y], the
    rectangle and the margins: Top when [y < top + marginTop]; otherwise
    Bottom when [y > bottom - marginBottom]; otherwise none.  With
    [marginTop = 4], [y = rect.top] is Top; with [marginBottom = 4],
    [y = rect.bottom] is Bottom provided the rectangle is at least
    [marginTop] high; the midpoint has no zone provided neither margin
    reaches past it. *)
Theorem C3_zone_classification (d : Draggable) (rect : Rect) (mouse : MousePos) :
  ((pos_y mouse < rect_top rect + lb_top (lineBoundary d))%Q ->
     _getBoundaryType d rect mouse = Some top) /\
  (~ (pos_y mouse < rect_top rect + lb_top (lineBoundary d))%Q ->
   (rect_bottom rect - lb_bottom (lineBoundary d) < pos_y mouse)%Q ->
     _getBoundaryType d rect mouse = Some bottom) /\
  (~ (pos_y mouse < rect_top rect + lb_top (lineBoundary d))%Q ->
   ~ (rect_bottom rect - lb_bottom (lineBoundary d) < pos_y mouse)%Q ->
     _getBoundaryType d rect mouse = None) /\
  ((lb_top (lineBoundary d) == 4)%Q -> (pos_y mouse == rect_top rect)%Q ->
     _getBoundaryType d rect mouse = Some top) /\
  ((lb_bottom (lineBoundary d) == 4)%Q -> (pos_y mouse == rect_bottom rect)%Q ->
   (rect_top rect + lb_top (lineBoundary d) <= rect_bottom rect)%Q ->
     _getBoundaryType d rect mouse = Some bottom) /\
  ((pos_y mouse == (rect_top rect + rect_bottom rect) / 2)%Q ->
   (rect_top rect + lb_top (lineBoundary d) <= pos_y mouse)%Q ->
   (pos_y mouse <= rect_bottom rect - lb_bottom (lineBoundary d))%Q ->
     _getBoundaryType d rect mouse = None).
Proof.
  repeat split.
  - apply zone_top.
  - intros Ht Hb. apply zone_bottom; [lra | exact Hb].
  - intros Ht Hb. apply zone_none; lra.
  - intros Hm Hy. apply zone_top. lra.
  - intros Hm Hy Hh. apply zone_bottom; lra.
  - intros _ Ht Hb. now apply zone_none.
Qed.

Lemma C3_zone_classification_witness :
  _getBoundaryType (self (init ∅ sortableOptions)) (mkRect 20 40 0 100) (mkPos 10 20)
    = Some top /\
  _getBoundaryType (self (init ∅ sortableOptions)) (mkRect 20 40 0 100) (mkPos 10 40)
    = Some bottom /\
  _getBoundaryType (self (init ∅ sortableOptions)) (mkRect 20 40 0 100) (mkPos 10 30)
    = None.
Proof.
  split; [| split].
  - apply (C3_zone_classification (self (init ∅ sortableOptions))
             (mkRect 20 40 0 100) (mkPos 10 20)); reflexivity.
  - apply (C3_zone_classification (self (init ∅ sortableOptions))
             (mkRect 20 40 0 100) (mkPos 10 40)); vm_compute; congruence.
  - apply (C3_zone_classification (self (init ∅ sortableOptions))
             (mkRect 20 40 0 100) (mkPos 10 30)); vm_compute; congruence.
Defined.

(** ** Containment *)

Lemma andb4_true (a b c e : bool) :
  (if a && b && c && e then true else false) = true <->
  (a = true /\ b = true) /\ (c = true /\ e = true).
Proof. destruct a, b, c, e; simpl; intuition congruence. Qed.

Lemma isContain_sortable (d : Draggable) (rect : Rect) (mouse : MousePos) :
  isSortable d = true ->
  _isContain d rect mouse = true <->
  ((rect_left rect < pos_x mouse)%Q /\ (pos_x mouse < rect_right rect)%Q) /\
  ((rect_top rect + lb_top (lineBoundary d) < pos_y mouse)%Q /\
   (pos_y mouse < rect_bottom rect - lb_bottom (lineBoundary d))%Q).
Proof.
  intros Hs. unfold _isContain. rewrite Hs, andb4_true.
  now rewrite !Qltb_lt.
Qed.

Lemma isContain_plain (d : Draggable) (rect : Rect) (mouse : MousePos) :
  isSortable d = false ->
  _isContain d rect mouse = true <->
  ((rect_left rect < pos_x mouse)%Q /\ (pos_x mouse < rect_right rect)%Q) /\
  ((rect_top rect < pos_y mouse)%Q /\ (pos_y mouse < rect_bottom rect)%Q).
Proof.
  intros Hs. unfold _isContain. rewrite Hs, andb4_true.
  now rewrite !Qltb_lt.
Qed.

(** C4: the containment test is true exactly when [left < x < right] and,
    in sortable mode, [top + marginTop < y < bottom - marginBottom], out of
    sortable mode [top < y < bottom].  Hence a pointer strictly inside the
    rectangle and outside its two margins is contained; in sortable mode,
    or when the margins are not negative, being between the margins is
    enough. *)
Theorem C4_containment (d : Draggable) (rect : Rect) (mouse : MousePos) :
  (_isContain d rect mouse = true <->
     ((rect_left rect < pos_x mouse)%Q /\ (pos_x mouse < rect_right rect)%Q) /\
     (if isSortable d
      then (rect_top rect + lb_top (lineBoundary d) < pos_y mouse)%Q /\
           (pos_y mouse < rect_bottom rect - lb_bottom (lineBoundary d))%Q
      else (rect_top rect < pos_y mouse)%Q /\ (pos_y mouse < rect_bottom rect)%Q)) /\
  ((rect_left rect < pos_x mouse)%Q /\ (pos_x mouse < rect_right rect)%Q ->
   (rect_top rect < pos_y mouse)%Q /\ (pos_y mouse < rect_bottom rect)%Q ->
   (rect_top rect + lb_top (lineBoundary d) < pos_y mouse)%Q /\
   (pos_y mouse < rect_bottom rect - lb_bottom (lineBoundary d))%Q ->
   _isContain d rect mouse = true) /\
  (isSortable d = true \/
     ((0 <= lb_top (lineBoundary d))%Q /\ (0 <= lb_bottom (lineBoundary d))%Q) ->
   (rect_left rect < pos_x mouse)%Q /\ (pos_x mouse < rect_right rect)%Q ->
   (rect_top rect + lb_top (lineBoundary d) < pos_y mouse)%Q /\
   (pos_y mouse < rect_bottom rect - lb_bottom (lineBoundary d))%Q ->
   _isContain d rect mouse = true).
Proof.
  split; [| split].
  - destruct (isSortable d) eqn:Hs.
    + now apply isContain_sortable.
    + now apply isContain_plain.
  - intros Hx Hy Hm. destruct (isSortable d) eqn:Hs.
    + apply isContain_sortable; auto.
    + apply isContain_plain; auto.
  - intros Hm Hx [Ht Hb]. destruct (isSortable d) eqn:Hs.
    + apply isContain_sortable; auto.
    + destruct Hm as [Hm | [Hmt Hmb]]; [discriminate |].
      apply isContain_plain; [assumption |]. split; [assumption |]. split; lra.
Qed.

Lemma C4_containment_witness :
  _isContain (self (init ∅ sortableOptions)) (mkRect 20 40 0 100) (mkPos 10 30) = true /\
  _isContain (self (init ∅ noOptions)) (mkRect 20 40 0 100) (mkPos 10 30) = true.
Proof.
  split.
  - apply (proj1 (proj2 (C4_containment (self (init ∅ sortableOptions))
                           (mkRect 20 40 0 100) (mkPos 10 30))));
      split; reflexivity.
  - apply (proj2 (proj2 (C4_containment (self (init ∅ noOptions))
                           (mkRect 20 40 0 100) (mkPos 10 30)))).
    + right. split; vm_compute; discriminate.
    + split; reflexivity.
    + split; reflexivity.
Defined.

(** Out of sortable mode a negative margin puts part of the shrunk
    rectangle outside the real one, where the test fails. *)
Example isContain_negative_margin :
  let d := self (init ∅ (mkOptions None None None None None None None None None
                           (Some (mkBoundary (-10) 4)))) in
  (0 + lb_top (lineBoundary d) < -5)%Q /\
  _isContain d (mkRect 0 20 0 100) (mkPos 10 (-5)) = false.
Proof. split; reflexivity. Qed.

(** ** Drop resolution *)

Lemma effects_setClassNameOnDragItem (h : Host) (type : string) (w : World) :
  effects (_setClassNameOnDragItem h type w) = effects w.
Proof. unfold _setClassNameOnDragItem. now destruct (String.eqb type "add"). Qed.

Lemma effects_reset (h : Host) (w : World) : effects (_reset h w) = effects w.
Proof.
  unfold _reset. cbn [effects set_listening update set_self set_helperStyle].
  rewrite effects_setClassNameOnDragItem.
  destruct (isSortable (self w)); cbn; now destruct (hoveredElement (self w)).
Qed.

(** What mouseup asks of the tree. *)
Lemma effects_onMouseup (h : Host) (event : MouseEvent) (w : World) :
  effects (_onMouseup h event w) =
  effects w ++
    [TreeMove (currentNodeId (self w))
       (if (_getIndexToInsert h (self w) (_getTargetNodeId h (self w) (target event)) =? -1)%Z
        then _getTargetNodeId h (self w) (target event)
        else getParentId h (_getTargetNodeId h (self w) (target event)))
       (_getIndexToInsert h (self w) (_getTargetNodeId h (self w) (target event)))].
Proof. unfold _onMouseup. now rewrite effects_reset. Qed.

Lemma lastDecision_snoc (log : list Effect) (n p : jsid) (i : Z) :
  lastDecision (log ++ [TreeMove n p i]) = Some (p, i).
Proof. unfold lastDecision. now rewrite last_snoc. Qed.

(** The event matters to mouseup only through the target it resolves to. *)
Lemma onMouseup_same_target (h : Host) (w : World) (e1 e2 : MouseEvent) :
  _getTargetNodeId h (self w) (target e1) = _getTargetNodeId h (self w) (target e2) ->
  _onMouseup h e1 w = _onMouseup h e2 w.
Proof. intros H. unfold _onMouseup. now rewrite H. Qed.

Lemma getTargetNodeId_hit (h : Host) (d : Draggable) (tgt : Element) :
  truthy (getNodeIdFromElement h tgt) = true ->
  _getTargetNodeId h d tgt = getNodeIdFromElement h tgt.
Proof. intros H. unfold _getTargetNodeId. now rewrite H. Qed.

Lemma truthy_JStr (s : string) : s <> EmptyString -> truthy (JStr s) = true.
Proof. intros H. simpl. destruct s; [congruence | reflexivity]. Qed.

Lemma array_at_first (x : string) (rest : list string) : array_at (x :: rest) 0 = JStr x.
Proof. reflexivity. Qed.

Lemma array_at_last (rest : list string) (x : string) :
  array_at (rest ++ [x]) (Z.of_nat (length (rest ++ [x])) - 1) = JStr x.
Proof.
  unfold array_at. rewrite length_app. simpl.
  replace (Z.of_nat (length rest + 1) - 1)%Z with (Z.of_nat (length rest)) by lia.
  destruct (Z.ltb_spec (Z.of_nat (length rest)) 0); [lia |].
  rewrite Nat2Z.id. now rewrite list_lookup_middle.
Qed.

Lemma array_at_empty (i : Z) : array_at [] i = JUndefined.
Proof. unfold array_at. now destruct (i <? 0)%Z. Qed.

(** C1: a drop over the node [X].  With no zone recorded the move is
    (parent [X], index -1); with zone top it is (parent of [X], index of
    [X] among its siblings); with zone bottom (parent of [X], that index
    plus one).  Parent and index depend on the hit node and the zone only:
    another drag released over [X] with the same zone gets the same two. *)
Theorem C1_drop_on_node (h : Host) (w : World) (event : MouseEvent) (X : string) :
  getNodeIdFromElement h (target event) = JStr X ->
  X <> EmptyString ->
  (0 <= getNodeIndex h (JStr X))%Z ->
  (movingLineType (self w) = None ->
     effects (_onMouseup h event w) =
     effects w ++ [TreeMove (currentNodeId (self w)) (JStr X) (-1)]) /\
  (movingLineType (self w) = Some top ->
     effects (_onMouseup h event w) =
     effects w ++ [TreeMove (currentNodeId (self w))
                     (getParentId h (JStr X)) (getNodeIndex h (JStr X))]) /\
  (movingLineType (self w) = Some bottom ->
     effects (_onMouseup h event w) =
     effects w ++ [TreeMove (currentNodeId (self w))
                     (getParentId h (JStr X)) (getNodeIndex h (JStr X) + 1)]) /\
  (forall (w' : World) (event' : MouseEvent),
     getNodeIdFromElement h (target event') = JStr X ->
     movingLineType (self w') = movingLineType (self w) ->
     lastDecision (effects (_onMouseup h event' w')) =
     lastDecision (effects (_onMouseup h event w))).
Proof.
  intros Hhit HX Hidx.
  assert (Ht : forall w0 e0, getNodeIdFromElement h (target e0) = JStr X ->
                             _getTargetNodeId h (self w0) (target e0) = JStr X).
  { intros w0 e0 He. rewrite getTargetNodeId_hit; rewrite He; [reflexivity |].
    now apply truthy_JStr. }
  repeat split.
  - intros Hz. rewrite effects_onMouseup, (Ht w event Hhit).
    unfold _getIndexToInsert. now rewrite Hz.
  - intros Hz. rewrite effects_onMouseup, (Ht w event Hhit).
    unfold _getIndexToInsert. rewrite Hz. simpl.
    destruct (Z.eqb_spec (getNodeIndex h (JStr X)) (-1)); [lia | reflexivity].
  - intros Hz. rewrite effects_onMouseup, (Ht w event Hhit).
    unfold _getIndexToInsert. rewrite Hz. simpl.
    destruct (Z.eqb_spec (getNodeIndex h (JStr X) + 1) (-1)); [lia | reflexivity].
  - intros w' event' Hhit' Hz.
    rewrite !effects_onMouseup, !lastDecision_snoc, (Ht w event Hhit), (Ht w' event' Hhit').
    unfold _getIndexToInsert. now rewrite Hz.
Qed.

Lemma C1_drop_on_node_witness :
  effects (_onMouseup demoHost (pointer "b" 10 22) over_a_top) =
  effects over_a_top ++ [TreeMove (currentNodeId (self over_a_top))
                           (getParentId demoHost (JStr "b")) (getNodeIndex demoHost (JStr "b"))].
Proof.
  apply (C1_drop_on_node demoHost over_a_top (pointer "b" 10 22) "b").
  - reflexivity.
  - discriminate.
  - vm_compute. discriminate.
  - reflexivity.
Defined.

(** A drop over the background resolves to a root-level node. *)
Lemma getTargetNodeId_background (h : Host) (d : Draggable) (tgt : Element) :
  truthy (getNodeIdFromElement h tgt) = false ->
  _getTargetNodeId h d tgt =
  if bool_decide (movingLineType d = Some top)
  then array_at (getChildIds h (getRootNodeId h)) 0
  else array_at (getChildIds h (getRootNodeId h))
         (Z.of_nat (length (getChildIds h (getRootNodeId h))) - 1).
Proof. intros H. unfold _getTargetNodeId. now rewrite H. Qed.

(** Releasing over a node that is itself the one the background rule
    picks gives that node, whether or not its id is truthy. *)
Lemma getTargetNodeId_direct (h : Host) (d : Draggable) (tgt : Element) (n : jsid) :
  getNodeIdFromElement h tgt = n ->
  (if bool_decide (movingLineType d = Some top)
   then array_at (getChildIds h (getRootNodeId h)) 0
   else array_at (getChildIds h (getRootNodeId h))
          (Z.of_nat (length (getChildIds h (getRootNodeId h))) - 1)) = n ->
  _getTargetNodeId h d tgt = n.
Proof.
  intros Hn Hpick. unfold _getTargetNodeId. rewrite Hn.
  destruct (truthy n); [reflexivity | exact Hpick].
Qed.

(** C5: a drop over the background with zone top resolves to the first
    root-level child and does exactly what a drop with zone top on that
    child does; with zone bottom the same holds for the last root-level
    child. *)
Theorem C5_background_drop (h : Host) (w : World) (background direct : MouseEvent)
    (child : string) (others : list string) :
  truthy (getNodeIdFromElement h (target background)) = false ->
  getNodeIdFromElement h (target direct) = JStr child ->
  (movingLineType (self w) = Some top ->
   getChildIds h (getRootNodeId h) = child :: others ->
   _getTargetNodeId h (self w) (target background) = JStr child /\
   _onMouseup h background w = _onMouseup h direct w) /\
  (movingLineType (self w) = Some bottom ->
   getChildIds h (getRootNodeId h) = others ++ [child] ->
   _getTargetNodeId h (self w) (target background) = JStr child /\
   _onMouseup h background w = _onMouseup h direct w).
Proof.
  intros Hbg Hdir. split; intros Hz Hch.
  - assert (Hpick : _getTargetNodeId h (self w) (target background) = JStr child).
    { rewrite getTargetNodeId_background by exact Hbg. now rewrite Hz, Hch. }
    split; [exact Hpick |].
    apply onMouseup_same_target. rewrite Hpick. symmetry.
    apply getTargetNodeId_direct; [exact Hdir |]. now rewrite Hz, Hch.
  - assert (Hpick : _getTargetNodeId h (self w) (target background) = JStr child).
    { rewrite getTargetNodeId_background by exact Hbg. rewrite Hz, Hch. simpl.
      apply array_at_last. }
    split; [exact Hpick |].
    apply onMouseup_same_target. rewrite Hpick. symmetry.
    apply getTargetNodeId_direct; [exact Hdir |]. rewrite Hz, Hch. simpl.
    apply array_at_last.
Qed.

Lemma C5_background_drop_witness :
  _onMouseup demoHost (pointer "page" 10 2) over_a_top =
  _onMouseup demoHost (pointer "a" 10 2) over_a_top /\
  _onMouseup demoHost (pointer "page" 10 59) over_b_bottom =
  _onMouseup demoHost (pointer "c" 10 59) over_b_bottom.
Proof.
  split.
  - apply (proj1 (C5_background_drop demoHost over_a_top (pointer "page" 10 2)
                    (pointer "a" 10 2) "a" ["b"; "c"] eq_refl eq_refl));
      reflexivity.
  - apply (proj2 (C5_background_drop demoHost over_b_bottom (pointer "page" 10 59)
                    (pointer "c" 10 59) "c" ["a"; "b"] eq_refl eq_refl));
      reflexivity.
Defined.

(** C10: a drop over the background with no zone recorded resolves to the
    last root-level child and appends the dragged node to it (index -1);
    with no root-level child the move names no parent ([undefined]). *)
Theorem C10_background_drop_no_zone (h : Host) (w : World) (background : MouseEvent) :
  truthy (getNodeIdFromElement h (target background)) = false ->
  movingLineType (self w) = None ->
  (forall (others : list string) (child : string),
     getChildIds h (getRootNodeId h) = others ++ [child] ->
     _getTargetNodeId h (self w) (target background) = JStr child /\
     effects (_onMouseup h background w) =
     effects w ++ [TreeMove (currentNodeId (self w)) (JStr child) (-1)]) /\
  (getChildIds h (getRootNodeId h) = [] ->
     effects (_onMouseup h background w) =
     effects w ++ [TreeMove (currentNodeId (self w)) JUndefined (-1)]).
Proof.
  intros Hbg Hz. split.
  - intros others child Hch.
    assert (Hpick : _getTargetNodeId h (self w) (target background) = JStr child).
    { rewrite getTargetNodeId_background by exact Hbg. rewrite Hz, Hch. simpl.
      apply array_at_last. }
    split; [exact Hpick |].
    rewrite effects_onMouseup, Hpick. unfold _getIndexToInsert. now rewrite Hz.
  - intros Hch. rewrite effects_onMouseup.
    rewrite getTargetNodeId_background by exact Hbg. rewrite Hz, Hch. simpl.
    unfold _getIndexToInsert. now rewrite Hz.
Qed.

Lemma C10_background_drop_no_zone_witness :
  effects (_onMouseup demoHost (pointer "page" 10 10) over_a_middle) =
  effects over_a_middle ++ [TreeMove (currentNodeId (self over_a_middle)) (JStr "c") (-1)].
Proof.
  apply (proj1 (C10_background_drop_no_zone demoHost over_a_middle (pointer "page" 10 10)
                  eq_refl eq_refl) ["a"; "b"] "c").
  reflexivity.
Defined.

(** ** Construction *)

Lemma extend_defaults (o : Options) :
  is_Some (opt_useHelper (extend defaultOptions o)) /\
  is_Some (opt_helperPos (extend defaultOptions o)) /\
  is_Some (opt_autoOpenDelay (extend defaultOptions o)) /\
  is_Some (opt_isSortable (extend defaultOptions o)) /\
  is_Some (opt_lineBoundary (extend defaultOptions o)).
Proof.
  destruct o as [u p rt rc a s hc lc hp lb]; simpl.
  destruct u, p, a, s, lb; simpl; repeat split; eauto.
Qed.

(** C8, as stated, fails: the constructor accepts a top margin of -1 and
    a delay of -1 and stores them; with that margin a pointer half a pixel
    above the rectangle gets no zone, where the default margin says Top. *)
Lemma C8_counterexample :
  lineBoundary (self (init ∅ negativeMarginOptions)) = mkBoundary (-1) 4 /\
  _getBoundaryType (self (init ∅ negativeMarginOptions)) (mkRect 10 30 0 100)
    (mkPos 5 (19 # 2)) = None /\
  _getBoundaryType (self (init ∅ sortableOptions)) (mkRect 10 30 0 100)
    (mkPos 5 (19 # 2)) = Some top /\
  autoOpenDelay (self (init ∅ negativeDelayOptions)) = (-1)%Z.
Proof. repeat split. Qed.

(** C8 (amended): the constructor checks nothing: it always builds the
    feature, and the margins and the delay of the result are those of the
    options when given, whatever their sign, and the defaults (4, 4 and
    1500) otherwise. *)
Theorem C8_init_keeps_options (dom : ClassStore) (o : Options) :
  lineBoundary (self (init dom o)) = default (mkBoundary 4 4) (opt_lineBoundary o) /\
  autoOpenDelay (self (init dom o)) = default 1500%Z (opt_autoOpenDelay o) /\
  isSortable (self (init dom o)) = default false (opt_isSortable o) /\
  useHelper (self (init dom o)) = default true (opt_useHelper o).
Proof.
  destruct o as [u p rt rc a s hc lc hp lb]; simpl.
  now destruct u, a, s, lb.
Qed.

(** ** Mousedown *)

(** C6, as stated, fails: while [c] is being dragged and [a] is hovered, a
    second (left button) mousedown on [b] is taken: [b] becomes the
    dragged node. *)
Lemma C6_counterexample :
  listening over_a_middle = true /\
  currentNodeId (self over_a_middle) = JStr "c" /\
  currentNodeId (self (step demoHost over_a_middle (Mousedown (pointer "b" 10 30))))
    = JStr "b".
Proof. repeat split. Qed.

(** C6 (amended): a mousedown during a drag is treated like any other.
    When it is not eligible (right button, rejected tag or class, label
    being edited) it changes nothing.  When it is eligible the dragged node
    becomes the node under it and the drag goes on: the hovered element,
    the zone, the timer, the pending timers, the classes and the effect
    log are unchanged. *)
Theorem C6_mousedown_while_active (h : Host) (w : World) (event : MouseEvent) :
  listening w = true ->
  (isRightButton event || _isNotDraggable h w (target event) || isEditing h = true ->
     step h w (Mousedown event) = w) /\
  (isRightButton event || _isNotDraggable h w (target event) || isEditing h = false ->
     currentNodeId (self (step h w (Mousedown event)))
       = getNodeIdFromElement h (target event) /\
     listening (step h w (Mousedown event)) = true /\
     hoveredElement (self (step h w (Mousedown event))) = hoveredElement (self w) /\
     movingLineType (self (step h w (Mousedown event))) = movingLineType (self w) /\
     timer (self (step h w (Mousedown event))) = timer (self w) /\
     timers (step h w (Mousedown event)) = timers w /\
     classes (step h w (Mousedown event)) = classes w /\
     effects (step h w (Mousedown event)) = effects w).
Proof.
  intros Hl. simpl. unfold _onMousedown. split; intros ->.
  - reflexivity.
  - destruct (useHelper (self w)) eqn:Hu; simpl; rewrite Hu;
      [destruct (nodeText h (getNodeIdFromElement h (target event))) |];
      repeat split; exact Hl.
Qed.

Lemma C6_mousedown_while_active_witness :
  step demoHost over_a_middle (Mousedown (mkEvent "b" (mkPos 10 30) true)) = over_a_middle /\
  hoveredElement (self (step demoHost over_a_middle (Mousedown (pointer "b" 10 30))))
    = hoveredElement (self over_a_middle).
Proof.
  split.
  - apply (C6_mousedown_while_active demoHost over_a_middle
             (mkEvent "b" (mkPos 10 30) true)); reflexivity.
  - apply (C6_mousedown_while_active demoHost over_a_middle (pointer "b" 10 30));
      reflexivity.
Defined.

(** ** Mousemove *)

Lemma self_setClassNameOnDragItem (h : Host) (type : string) (w : World) :
  self (_setClassNameOnDragItem h type w) = self w.
Proof. unfold _setClassNameOnDragItem. now destruct (String.eqb type "add"). Qed.

Lemma self_changeHelperPosition (h : Host) (mouse : MousePos) (w : World) :
  self (_changeHelperPosition h mouse w) = self w.
Proof. reflexivity. Qed.

Lemma timers_setClassNameOnDragItem (h : Host) (type : string) (w : World) :
  timers (_setClassNameOnDragItem h type w) = timers w.
Proof. unfold _setClassNameOnDragItem. now destruct (String.eqb type "add"). Qed.

(** The hover step keeps the configuration and the recorded zone. *)
Lemma hover_keeps (h : Host) (nodeId : string) (w : World) :
  isSortable (self (_hover h nodeId w)) = isSortable (self w) /\
  lineBoundary (self (_hover h nodeId w)) = lineBoundary (self w) /\
  movingLineType (self (_hover h nodeId w)) = movingLineType (self w) /\
  hoveredElement (self (_hover h nodeId w)) = hoveredElement (self w).
Proof. unfold _hover. destruct (isLeaf h nodeId); repeat split. Qed.

Lemma unhover_keeps (w : World) :
  isSortable (self (_unhover w)) = isSortable (self w) /\
  lineBoundary (self (_unhover w)) = lineBoundary (self w) /\
  movingLineType (self (_unhover w)) = movingLineType (self w) /\
  hoveredElement (self (_unhover w)) = None.
Proof. unfold _unhover. destruct (timer (self w)); repeat split. Qed.

Lemma getBoundaryType_ext (d d' : Draggable) (rect : Rect) (mouse : MousePos) :
  lineBoundary d = lineBoundary d' ->
  _getBoundaryType d rect mouse = _getBoundaryType d' rect mouse.
Proof. intros H. unfold _getBoundaryType. now rewrite H. Qed.

Lemma movingLineType_drawBoundaryLine (h : Host) (rect : Rect)
    (b : option BoundaryType) (w : World) :
  movingLineType (self (_drawBoundaryLine h rect b w)) = b.
Proof. now destruct b. Qed.

Lemma hoveredElement_drawBoundaryLine (h : Host) (rect : Rect)
    (b : option BoundaryType) (w : World) :
  hoveredElement (self (_drawBoundaryLine h rect b w)) = hoveredElement (self w).
Proof. now destruct b. Qed.

(** What a move sample over the element [el] of a node does to the zone. *)
Lemma movingLineType_applyMoveAction (h : Host) (nodeId : string) (el : Element)
    (mouse : MousePos) (w : World) :
  getElementById h (JStr nodeId) = Some el ->
  movingLineType (self (_applyMoveAction h nodeId mouse w)) =
  if isSortable (self w)
  then _getBoundaryType (self w) (getBoundingClientRect h el) mouse
  else movingLineType (self w).
Proof.
  intros Hel. unfold _applyMoveAction. rewrite Hel.
  set (contained := _isContain (self w) (getBoundingClientRect h el) mouse).
  set (cls := hasClass (classes w) el (hoverClassName (self w))).
  destruct (negb (bool_decide (is_Some (hoveredElement (self w)))) && contained).
  - destruct (hover_keeps h nodeId (update (set_hoveredElement (Some el)) w))
      as (Hs & Hb & Hm & _).
    rewrite Hs. simpl. destruct (isSortable (self w)).
    + rewrite movingLineType_drawBoundaryLine. now apply getBoundaryType_ext.
    + exact Hm.
  - destruct (negb cls || cls && negb contained).
    + destruct (unhover_keeps w) as (Hs & Hb & Hm & _).
      rewrite Hs. destruct (isSortable (self w)).
      * rewrite movingLineType_drawBoundaryLine. now apply getBoundaryType_ext.
      * exact Hm.
    + destruct (isSortable (self w)); [| reflexivity].
      apply movingLineType_drawBoundaryLine.
Qed.

Lemma onMousemove_no_node (h : Host) (w : World) (event : MouseEvent) :
  useHelper (self w) = true ->
  truthy (getNodeIdFromElement h (target event)) = false ->
  _onMousemove h event w =
  _changeHelperPosition h (mousePos event) (_setClassNameOnDragItem h "add" w).
Proof.
  intros Hu Hn. unfold _onMousemove. rewrite Hu. simpl.
  destruct (getNodeIdFromElement h (target event)); try reflexivity.
  now rewrite Hn.
Qed.

Lemma onMousemove_node (h : Host) (w : World) (event : MouseEvent) (nodeId : string) :
  useHelper (self w) = true ->
  getNodeIdFromElement h (target event) = JStr nodeId ->
  nodeId <> EmptyString ->
  _onMousemove h event w =
  _applyMoveAction h nodeId (mousePos event)
    (_changeHelperPosition h (mousePos event) (_setClassNameOnDragItem h "add" w)).
Proof.
  intros Hu Hn Hne. unfold _onMousemove. rewrite Hu. simpl.
  rewrite Hn. now rewrite truthy_JStr.
Qed.

(** C9, as stated, fails: with [useHelper] off (and sortable mode on) a
    move sample during a drag does nothing at all.  The pointer is inside
    [a] and nothing is hovered, yet [a] does not become hovered; the
    pointer is in the top zone of [a], yet no zone is recorded. *)
Lemma C9_counterexample :
  listening dragging_c_no_helper = true /\
  isSortable (self dragging_c_no_helper) = true /\
  hoveredElement (self dragging_c_no_helper) = None /\
  _isContain (self dragging_c_no_helper)
    (getBoundingClientRect demoHost "a") (mkPos 10 10) = true /\
  hoveredElement
    (self (step demoHost dragging_c_no_helper (Mousemove (pointer "a-text" 10 10)))) = None /\
  _getBoundaryType (self dragging_c_no_helper)
    (getBoundingClientRect demoHost "a") (mkPos 10 2) = Some top /\
  movingLineType
    (self (step demoHost dragging_c_no_helper (Mousemove (pointer "a-text" 10 2)))) = None.
Proof. repeat split. Qed.

(** C9 (amended): before a drag starts a move sample is not delivered and
    changes nothing; during a drag it changes nothing when [useHelper] is
    off; with [useHelper] on and no node under the pointer it only
    refreshes the drag item class and the helper position; with
    [useHelper] on and a node under the pointer it runs the hover step on
    that node and, in sortable mode, records the zone of the pointer in the
    node's rectangle (out of sortable mode the zone is left as it was). *)
Theorem C9_mousemove (h : Host) (w : World) (event : MouseEvent) :
  (listening w = false -> step h w (Mousemove event) = w) /\
  (listening w = true -> useHelper (self w) = false ->
     step h w (Mousemove event) = w) /\
  (listening w = true -> useHelper (self w) = true ->
   truthy (getNodeIdFromElement h (target event)) = false ->
     step h w (Mousemove event) =
       _changeHelperPosition h (mousePos event) (_setClassNameOnDragItem h "add" w) /\
     self (step h w (Mousemove event)) = self w /\
     timers (step h w (Mousemove event)) = timers w) /\
  (listening w = true -> useHelper (self w) = true ->
   forall (nodeId : string) (el : Element),
     getNodeIdFromElement h (target event) = JStr nodeId ->
     nodeId <> EmptyString ->
     getElementById h (JStr nodeId) = Some el ->
     step h w (Mousemove event) =
       _applyMoveAction h nodeId (mousePos event)
         (_changeHelperPosition h (mousePos event) (_setClassNameOnDragItem h "add" w)) /\
     (isSortable (self w) = true ->
        movingLineType (self (step h w (Mousemove event))) =
        _getBoundaryType (self w) (getBoundingClientRect h el) (mousePos event)) /\
     (isSortable (self w) = false ->
        movingLineType (self (step h w (Mousemove event))) = movingLineType (self w))).
Proof.
  split; [| split; [| split]].
  - intros Hl. simpl. now rewrite Hl.
  - intros Hl Hu. simpl. rewrite Hl. unfold _onMousemove. now rewrite Hu.
  - intros Hl Hu Hn. simpl. rewrite Hl, (onMousemove_no_node h w event Hu Hn).
    split; [reflexivity | split].
    + rewrite self_changeHelperPosition. apply self_setClassNameOnDragItem.
    + unfold _changeHelperPosition. cbn [timers set_helperStyle].
      apply timers_setClassNameOnDragItem.
  - intros Hl Hu nodeId el Hn Hne Hel. simpl.
    rewrite Hl, (onMousemove_node h w event nodeId Hu Hn Hne).
    rewrite (movingLineType_applyMoveAction h nodeId el) by assumption.
    rewrite !self_changeHelperPosition, !self_setClassNameOnDragItem.
    split; [reflexivity | split]; intros Hs; now rewrite Hs.
Qed.

Lemma C9_mousemove_witness :
  step demoHost (init ∅ sortableOptions) (Mousemove (pointer "a-text" 10 2))
    = init ∅ sortableOptions /\
  step demoHost dragging_c_no_helper (Mousemove (pointer "a-text" 10 2))
    = dragging_c_no_helper /\
  movingLineType (self (step demoHost dragging_c (Mousemove (pointer "a-text" 10 2))))
    = _getBoundaryType (self dragging_c) (getBoundingClientRect demoHost "a") (mkPos 10 2).
Proof.
  split; [| split].
  - apply (proj1 (C9_mousemove demoHost (init ∅ sortableOptions) (pointer "a-text" 10 2))).
    reflexivity.
  - apply (proj1 (proj2 (C9_mousemove demoHost dragging_c_no_helper
                           (pointer "a-text" 10 2)))); reflexivity.
  - apply (proj2 (proj2 (proj2 (C9_mousemove demoHost dragging_c (pointer "a-text" 10 2))))
             eq_refl eq_refl "a" "a" eq_refl).
    + discriminate.
    + reflexivity.
    + reflexivity.
Defined.

(** ** The class store *)

Arguments hasClass : simpl never.
Arguments addClass : simpl never.
Arguments removeClass : simpl never.

Lemma hasClass_addClass (dom : ClassStore) (o : option Element) (c : string)
    (e : Element) (c' : string) :
  hasClass (addClass o c dom) e c' = true <->
  hasClass dom e c' = true \/ (o = Some e /\ c' = c).
Proof.
  destruct o as [el |]; unfold addClass.
  - destruct (hasClass dom el c) eqn:Hc.
    + split; [auto |]. intros [H | [[= ->] ->]]; auto.
    + unfold hasClass, getClass in *. rewrite !bool_decide_eq_true.
      destruct (decide (el = e)) as [-> | Hne].
      * rewrite lookup_insert_eq. simpl.
        rewrite elem_of_app, list_elem_of_singleton. split.
        -- intros [H | H]; auto.
        -- intros [H | [_ H]]; auto.
      * rewrite lookup_insert_ne by done. split; [auto |].
        intros [H | [[= H] _]]; [exact H | contradiction].
  - split; [auto |]. intros [H | [[=] _]]. exact H.
Qed.

Lemma hasClass_removeClass (dom : ClassStore) (o : option Element) (c : string)
    (e : Element) (c' : string) :
  hasClass (removeClass o c dom) e c' = true <->
  hasClass dom e c' = true /\ ~ (o = Some e /\ c' = c).
Proof.
  destruct o as [el |]; unfold removeClass.
  - destruct (hasClass dom el c) eqn:Hc.
    + unfold hasClass, getClass in *. rewrite !bool_decide_eq_true.
      destruct (decide (el = e)) as [-> | Hne].
      * rewrite lookup_insert_eq. simpl. rewrite list_elem_of_filter. split.
        -- intros [Hn H]. split; [exact H |]. intros [_ ->]. now apply Hn.
        -- intros [H Hn]. split; [| exact H]. intros ->. now apply Hn.
      * rewrite lookup_insert_ne by done. split; [| tauto].
        intros H. split; [exact H |]. intros [[= ?] _]. contradiction.
    + split; [| tauto]. intros H. split; [exact H |].
      intros [[= ->] ->]. congruence.
  - split; [| tauto]. intros H. split; [exact H |]. intros [[=] _].
Qed.

Lemma hasClass_empty (e : Element) (c : string) : hasClass ∅ e c = false.
Proof.
  unfold hasClass, getClass. now rewrite lookup_empty.
Qed.

(** ** One hovered element *)

Lemma classes_hover (h : Host) (nodeId : string) (w : World) :
  classes (_hover h nodeId w) =
  addClass (hoveredElement (self w)) (hoverClassName (self w)) (classes w) /\
  hoverClassName (self (_hover h nodeId w)) = hoverClassName (self w).
Proof. unfold _hover. destruct (isLeaf h nodeId); split; reflexivity. Qed.

Lemma classes_unhover (w : World) :
  classes (_unhover w) =
  removeClass (hoveredElement (self w)) (hoverClassName (self w)) (classes w) /\
  hoverClassName (self (_unhover w)) = hoverClassName (self w).
Proof. unfold _unhover. destruct (timer (self w)); split; reflexivity. Qed.

Lemma hover_inv_setClassNameOnDragItem (h : Host) (type : string) (w : World) :
  hoverClassName (self w) <> dragItemClassName ->
  hover_inv w -> hover_inv (_setClassNameOnDragItem h type w).
Proof.
  intros Hne Hinv e. rewrite self_setClassNameOnDragItem.
  unfold _setClassNameOnDragItem. destruct (String.eqb type "add"); simpl.
  - rewrite hasClass_addClass. intros [H | [_ H]]; [now apply Hinv | contradiction].
  - rewrite hasClass_removeClass. intros [H _]. now apply Hinv.
Qed.

Lemma hover_inv_drawBoundaryLine (h : Host) (rect : Rect) (b : option BoundaryType)
    (w : World) :
  hover_inv w -> hover_inv (_drawBoundaryLine h rect b w).
Proof. intros Hinv e. destruct b; simpl; apply Hinv. Qed.

(** Entering: nothing was highlighted, the new element becomes the only one. *)
Lemma hover_inv_enter (h : Host) (nodeId : string) (el : Element) (w : World) :
  hover_inv w -> hoveredElement (self w) = None ->
  hover_inv (_hover h nodeId (update (set_hoveredElement (Some el)) w)).
Proof.
  intros Hinv Hnone e.
  destruct (classes_hover h nodeId (update (set_hoveredElement (Some el)) w)) as [-> ->].
  destruct (hover_keeps h nodeId (update (set_hoveredElement (Some el)) w))
    as (_ & _ & _ & ->).
  rewrite hasClass_addClass. simpl. intros [H | [H _]]; [| exact H].
  apply Hinv in H. congruence.
Qed.

(** Leaving: the highlighted element loses the class, none is left. *)
Lemma hover_inv_unhover (w : World) : hover_inv w -> hover_inv (_unhover w).
Proof.
  intros Hinv e. destruct (classes_unhover w) as [-> ->].
  rewrite hasClass_removeClass. intros [H Hn].
  exfalso. apply Hn. split; [now apply Hinv | reflexivity].
Qed.

Lemma hover_inv_applyMoveAction (h : Host) (nodeId : string) (mouse : MousePos)
    (w : World) :
  hover_inv w -> hover_inv (_applyMoveAction h nodeId mouse w).
Proof.
  intros Hinv. unfold _applyMoveAction.
  destruct (getElementById h (JStr nodeId)) as [el |]; [| exact Hinv].
  set (rect := getBoundingClientRect h el).
  assert (Hstep : hover_inv
    (if negb (bool_decide (is_Some (hoveredElement (self w)))) && _isContain (self w) rect mouse
     then _hover h nodeId (update (set_hoveredElement (Some el)) w)
     else if negb (hasClass (classes w) el (hoverClassName (self w)))
             || hasClass (classes w) el (hoverClassName (self w))
                && negb (_isContain (self w) rect mouse)
          then _unhover w else w)).
  { destruct (hoveredElement (self w)) as [old |] eqn:Hh; simpl.
    - destruct (_ || _); [now apply hover_inv_unhover | exact Hinv].
    - destruct (_isContain (self w) rect mouse); simpl.
      + now apply hover_inv_enter.
      + destruct (_ || _); [now apply hover_inv_unhover | exact Hinv]. }
  match goal with |- hover_inv (if isSortable (self ?x) then _ else _) =>
    destruct (isSortable (self x)); [now apply hover_inv_drawBoundaryLine | exact Hstep]
  end.
Qed.

Lemma hover_inv_onMousemove (h : Host) (event : MouseEvent) (w : World) :
  hoverClassName (self w) <> dragItemClassName ->
  hover_inv w -> hover_inv (_onMousemove h event w).
Proof.
  intros Hne Hinv. unfold _onMousemove.
  destruct (useHelper (self w)); simpl; [| exact Hinv].
  assert (Hw : hover_inv (_changeHelperPosition h (mousePos event)
                            (_setClassNameOnDragItem h "add" w))).
  { intros e. rewrite self_changeHelperPosition.
    apply (hover_inv_setClassNameOnDragItem h "add" w Hne Hinv). }
  destruct (getNodeIdFromElement h (target event)) as [| | s]; try exact Hw.
  destruct (truthy (JStr s)); [| exact Hw].
  now apply hover_inv_applyMoveAction.
Qed.

Lemma hover_inv_reset (h : Host) (w : World) :
  hoverClassName (self w) <> dragItemClassName ->
  hover_inv w -> hover_inv (_reset h w).
Proof.
  intros Hne Hinv. unfold _reset.
  set (w1 := if isSortable (self w) then _ else w).
  assert (H1 : hover_inv w1 /\ self w1 = self w).
  { subst w1. destruct (isSortable (self w)); split; try reflexivity; exact Hinv. }
  destruct H1 as [H1 Hs1].
  set (w2 := match hoveredElement (self w1) with Some _ => _ | None => w1 end).
  assert (H2 : hover_inv w2 /\ hoverClassName (self w2) = hoverClassName (self w)).
  { subst w2. destruct (hoveredElement (self w1)) as [el |] eqn:Hh.
    - split; [| simpl; now rewrite Hs1].
      intros e. simpl. rewrite hasClass_removeClass. intros [H Hn].
      exfalso. apply Hn. split; [| reflexivity]. rewrite <- Hh. now apply H1.
    - split; [exact H1 | now rewrite Hs1]. }
  destruct H2 as [H2 Hc2].
  assert (H3 : hover_inv (_setClassNameOnDragItem h "remove" w2)).
  { apply hover_inv_setClassNameOnDragItem; [now rewrite Hc2 | exact H2]. }
  intros e. apply H3.
Qed.

Lemma hover_inv_onMouseup (h : Host) (event : MouseEvent) (w : World) :
  hoverClassName (self w) <> dragItemClassName ->
  hover_inv w -> hover_inv (_onMouseup h event w).
Proof.
  intros Hne Hinv. unfold _onMouseup. apply hover_inv_reset; [exact Hne |].
  intros e. apply Hinv.
Qed.

Lemma hover_inv_onMousedown (h : Host) (event : MouseEvent) (w : World) :
  hover_inv w -> hover_inv (_onMousedown h event w).
Proof.
  intros Hinv. unfold _onMousedown.
  destruct (_ || _); [exact Hinv |]. simpl.
  destruct (useHelper (self w)); [destruct (nodeText h _) |]; intros e; apply Hinv.
Qed.

(** Timers that fire only write to the effect log. *)
Lemma fold_emit_keeps (fired : list Timer) (w : World) :
  self (fold_left (fun acc tm => emit (TreeOpen (openNode tm)) acc) fired w) = self w /\
  classes (fold_left (fun acc tm => emit (TreeOpen (openNode tm)) acc) fired w) = classes w /\
  timers (fold_left (fun acc tm => emit (TreeOpen (openNode tm)) acc) fired w) = timers w /\
  nextHandle (fold_left (fun acc tm => emit (TreeOpen (openNode tm)) acc) fired w)
    = nextHandle w /\
  listening (fold_left (fun acc tm => emit (TreeOpen (openNode tm)) acc) fired w)
    = listening w /\
  effects (fold_left (fun acc tm => emit (TreeOpen (openNode tm)) acc) fired w)
    = effects w ++ map (fun tm => TreeOpen (openNode tm)) fired.
Proof.
  revert w. induction fired as [| tm fired IH]; intros w; simpl.
  - rewrite app_nil_r. repeat split.
  - destruct (IH (emit (TreeOpen (openNode tm)) w)) as (-> & -> & -> & -> & -> & ->).
    simpl. rewrite <- app_assoc. repeat split.
Qed.

Lemma tick_keeps (w : World) :
  self (tick w) = self w /\ classes (tick w) = classes w /\
  listening (tick w) = listening w /\ nextHandle (tick w) = nextHandle w.
Proof.
  unfold tick.
  match goal with |- context [fold_left ?f ?l ?x] =>
    destruct (fold_emit_keeps l x) as (-> & -> & _ & -> & -> & _) end.
  repeat split.
Qed.

Lemma elapse_keeps (ms : nat) (w : World) :
  self (Nat.iter ms tick w) = self w /\ classes (Nat.iter ms tick w) = classes w /\
  listening (Nat.iter ms tick w) = listening w.
Proof.
  induction ms as [| ms IH]; simpl; [repeat split |].
  destruct (tick_keeps (Nat.iter ms tick w)) as (-> & -> & -> & _). exact IH.
Qed.

(** No handler changes the class name used for the highlight. *)
Lemma hoverClassName_step (h : Host) (w : World) (i : Input) :
  hoverClassName (self (step h w i)) = hoverClassName (self w).
Proof.
  destruct i as [event | event | event | ms]; simpl.
  - unfold _onMousedown. destruct (_ || _); [reflexivity |]. simpl.
    now destruct (useHelper (self w)); [destruct (nodeText h _) |].
  - destruct (listening w); [| reflexivity]. unfold _onMousemove.
    destruct (useHelper (self w)); simpl; [| reflexivity].
    set (w1 := _changeHelperPosition _ _ _).
    assert (H1 : hoverClassName (self w1) = hoverClassName (self w)).
    { subst w1. now rewrite self_changeHelperPosition, self_setClassNameOnDragItem. }
    destruct (getNodeIdFromElement h (target event)) as [| | s]; try exact H1.
    destruct (truthy (JStr s)); [| exact H1].
    rewrite <- H1. unfold _applyMoveAction.
    destruct (getElementById h (JStr s)) as [el |]; [| reflexivity].
    match goal with |- hoverClassName (self (if isSortable (self ?x) then _ else _)) = _ =>
      assert (Hx : hoverClassName (self x) = hoverClassName (self w1));
      [| destruct (isSortable (self x)); [| exact Hx];
         match goal with |- context [_drawBoundaryLine _ _ ?b _] => now destruct b end]
    end.
    destruct (_ && _).
    + now destruct (classes_hover h s (update (set_hoveredElement (Some el)) w1)) as [_ ->].
    + destruct (_ || _); [| reflexivity]. now destruct (classes_unhover w1) as [_ ->].
  - destruct (listening w); [| reflexivity]. unfold _onMouseup, _reset.
    cbn [self set_listening update set_self set_helperStyle hoverClassName
         set_movingLineType set_currentNodeId].
    rewrite self_setClassNameOnDragItem.
    destruct (isSortable _); cbn; now destruct (hoveredElement (self w)).
  - now destruct (elapse_keeps ms w) as (-> & _).
Qed.

Lemma hover_inv_step (h : Host) (w : World) (i : Input) :
  hoverClassName (self w) <> dragItemClassName ->
  hover_inv w -> hover_inv (step h w i).
Proof.
  intros Hne Hinv. destruct i as [event | event | event | ms]; simpl.
  - now apply hover_inv_onMousedown.
  - destruct (listening w); [now apply hover_inv_onMousemove | exact Hinv].
  - destruct (listening w); [now apply hover_inv_onMouseup | exact Hinv].
  - intros e. destruct (elapse_keeps ms w) as (-> & -> & _). apply Hinv.
Qed.

(** From construction on, whatever happens, the highlight is on the
    hovered element and nowhere else: provided no element carried the
    hover class to begin with and the hover class is not the class that
    marks the dragged item. *)
Lemma hover_inv_run (h : Host) (inputs : list Input) (w : World) :
  hoverClassName (self w) <> dragItemClassName ->
  hover_inv w -> hover_inv (run h w inputs).
Proof.
  revert w. induction inputs as [| i inputs IH]; intros w Hne Hinv; [exact Hinv |].
  simpl. apply IH.
  - now rewrite hoverClassName_step.
  - now apply hover_inv_step.
Qed.

Lemma hover_inv_init (dom : ClassStore) (o : Options) :
  (forall e, hasClass dom e (hoverClassName (self (init dom o))) = false) ->
  hover_inv (init dom o).
Proof. intros Hdom e He. rewrite Hdom in He. discriminate. Qed.

(** What a move sample over the element [el] of a node does to the
    hovered element: enter, leave, or nothing. *)
Lemma hoveredElement_applyMoveAction (h : Host) (nodeId : string) (el : Element)
    (mouse : MousePos) (w : World) :
  getElementById h (JStr nodeId) = Some el ->
  hoveredElement (self (_applyMoveAction h nodeId mouse w)) =
  if negb (bool_decide (is_Some (hoveredElement (self w))))
     && _isContain (self w) (getBoundingClientRect h el) mouse
  then Some el
  else if negb (hasClass (classes w) el (hoverClassName (self w)))
          || hasClass (classes w) el (hoverClassName (self w))
             && negb (_isContain (self w) (getBoundingClientRect h el) mouse)
       then None
       else hoveredElement (self w).
Proof.
  intros Hel. unfold _applyMoveAction. rewrite Hel.
  match goal with |- hoveredElement (self (if isSortable (self ?x) then _ else _)) = _ =>
    transitivity (hoveredElement (self x));
    [destruct (isSortable (self x));
       [apply hoveredElement_drawBoundaryLine | reflexivity] |]
  end.
  destruct (_ && _).
  - now destruct (hover_keeps h nodeId (update (set_hoveredElement (Some el)) w))
      as (_ & _ & _ & ->).
  - destruct (_ || _); [| reflexivity]. now destruct (unhover_keeps w) as (_ & _ & _ & ->).
Qed.

(** C7, as stated, fails: [a] is hovered and the pointer moves one pixel
    inside it; the sample neither enters a hover (one is already there)
    nor leaves the current one: [a] stays hovered, its timer pending. *)
Lemma C7_counterexample :
  hoveredElement (self over_a_middle) = Some "a" /\
  listening over_a_middle = true /\
  step demoHost over_a_middle (Mousemove (pointer "a-text" 10 11)) =
    set_helperStyle (mkStyle DisplayDefault (11 - 0 + 2) (10 - 0 + 5)) over_a_middle /\
  hoveredElement (self (step demoHost over_a_middle (Mousemove (pointer "a-text" 10 11))))
    = Some "a".
Proof. repeat split. Qed.

(** The class of the dragged item does not interfere with the hover class. *)
Lemma hasClass_setClassNameOnDragItem (h : Host) (type : string) (w : World)
    (e : Element) :
  hoverClassName (self w) <> dragItemClassName ->
  hasClass (classes (_setClassNameOnDragItem h type w)) e (hoverClassName (self w)) =
  hasClass (classes w) e (hoverClassName (self w)).
Proof.
  intros Hne. apply eq_true_iff_eq.
  unfold _setClassNameOnDragItem. destruct (String.eqb type "add"); simpl.
  - rewrite hasClass_addClass. tauto.
  - rewrite hasClass_removeClass. tauto.
Qed.

Lemma hover_marked_applyMoveAction (h : Host) (nodeId : string) (mouse : MousePos)
    (w : World) :
  hover_marked w -> hover_marked (_applyMoveAction h nodeId mouse w).
Proof.
  intros Hinv. unfold _applyMoveAction.
  destruct (getElementById h (JStr nodeId)) as [el |]; [| exact Hinv].
  match goal with |- hover_marked (if isSortable (self ?x) then _ else _) =>
    assert (Hx : hover_marked x);
    [| destruct (isSortable (self x)); [| exact Hx];
       match goal with |- context [_drawBoundaryLine _ _ ?b _] =>
         intros e; destruct b; apply Hx end]
  end.
  destruct (_ && _).
  - intros e.
    destruct (classes_hover h nodeId (update (set_hoveredElement (Some el)) w)) as [-> ->].
    destruct (hover_keeps h nodeId (update (set_hoveredElement (Some el)) w))
      as (_ & _ & _ & ->).
    rewrite hasClass_addClass. simpl. intros He. now right.
  - destruct (_ || _); [| exact Hinv].
    intros e. destruct (unhover_keeps w) as (_ & _ & _ & ->). discriminate.
Qed.

Lemma hoveredElement_onMouseup (h : Host) (event : MouseEvent) (w : World) :
  hoveredElement (self (_onMouseup h event w)) = None.
Proof.
  unfold _onMouseup.
  match goal with |- context [_reset h ?x] => generalize x end.
  intros x. unfold _reset, _setClassNameOnDragItem.
  destruct (isSortable (self x)); cbn;
    destruct (hoveredElement (self x)) eqn:Hh; cbn; try rewrite Hh; reflexivity.
Qed.

Lemma hover_marked_step (h : Host) (w : World) (i : Input) :
  hoverClassName (self w) <> dragItemClassName ->
  hover_marked w -> hover_marked (step h w i).
Proof.
  intros Hne Hinv. destruct i as [event | event | event | ms]; simpl.
  - unfold _onMousedown. destruct (_ || _); [exact Hinv |]. simpl.
    destruct (useHelper (self w)); [destruct (nodeText h _) |]; intros e; apply Hinv.
  - destruct (listening w); [| exact Hinv]. unfold _onMousemove.
    destruct (useHelper (self w)); simpl; [| exact Hinv].
    set (w1 := _changeHelperPosition _ _ _).
    assert (H1 : hover_marked w1).
    { intros e. subst w1. rewrite self_changeHelperPosition, self_setClassNameOnDragItem.
      unfold _changeHelperPosition. cbn [classes set_helperStyle].
      rewrite (hasClass_setClassNameOnDragItem h "add" w e Hne). apply Hinv. }
    destruct (getNodeIdFromElement h (target event)) as [| | s]; try exact H1.
    destruct (truthy (JStr s)); [| exact H1].
    now apply hover_marked_applyMoveAction.
  - destruct (listening w); [| exact Hinv]. intros e.
    rewrite hoveredElement_onMouseup. discriminate.
  - intros e. destruct (elapse_keeps ms w) as (-> & -> & _). apply Hinv.
Qed.

Lemma hover_exact_split (w : World) : hover_exact w <-> hover_inv w /\ hover_marked w.
Proof.
  unfold hover_exact, hover_inv, hover_marked. split.
  - intros H. split; intros e; apply H.
  - intros [H1 H2] e. split; [apply H1 | apply H2].
Qed.

Lemma hover_exact_step (h : Host) (w : World) (i : Input) :
  hoverClassName (self w) <> dragItemClassName ->
  hover_exact w -> hover_exact (step h w i).
Proof.
  intros Hne Hex. apply hover_exact_split in Hex as [H1 H2]. apply hover_exact_split.
  split; [now apply hover_inv_step | now apply hover_marked_step].
Qed.

Lemma hover_exact_run (h : Host) (inputs : list Input) (w : World) :
  hoverClassName (self w) <> dragItemClassName ->
  hover_exact w -> hover_exact (run h w inputs).
Proof.
  revert w. induction inputs as [| i inputs IH]; intros w Hne Hex; [exact Hex |].
  simpl. apply IH; [now rewrite hoverClassName_step | now apply hover_exact_step].
Qed.

Lemma hover_exact_init (dom : ClassStore) (o : Options) :
  (forall e, hasClass dom e (hoverClassName (self (init dom o))) = false) ->
  hover_exact (init dom o).
Proof.
  intros Hdom e. split; [| discriminate]. intros He. rewrite Hdom in He. discriminate.
Qed.

(** One call of the handler on a sample over the element [el] of a node:
    what becomes of the hovered element, exactly. *)
Lemma hover_call_exact (h : Host) (w : World) (event : MouseEvent) (nodeId : string)
    (el : Element) :
  useHelper (self w) = true ->
  getNodeIdFromElement h (target event) = JStr nodeId -> nodeId <> EmptyString ->
  getElementById h (JStr nodeId) = Some el ->
  hoverClassName (self w) <> dragItemClassName -> hover_exact w ->
  hoveredElement (self (_onMousemove h event w)) =
  match hoveredElement (self w) with
  | None =>
      if _isContain (self w) (getBoundingClientRect h el) (mousePos event)
      then Some el else None
  | Some a =>
      if bool_decide (a = el) &&
         _isContain (self w) (getBoundingClientRect h el) (mousePos event)
      then Some a else None
  end.
Proof.
  intros Hu Hhit Hne Hel Hcls Hex.
  rewrite (onMousemove_node h w event nodeId Hu Hhit Hne).
  rewrite (hoveredElement_applyMoveAction h nodeId el) by exact Hel.
  rewrite !self_changeHelperPosition, !self_setClassNameOnDragItem.
  unfold _changeHelperPosition at 1 2. cbn [classes set_helperStyle].
  rewrite !(hasClass_setClassNameOnDragItem h "add" w el Hcls).
  destruct (_isContain (self w) (getBoundingClientRect h el) (mousePos event)).
  - destruct (hoveredElement (self w)) as [a |] eqn:Ha; simpl; [| reflexivity].
    destruct (hasClass (classes w) el (hoverClassName (self w))) eqn:Hc; simpl.
    + apply Hex in Hc. rewrite Ha in Hc. injection Hc as ->.
      now rewrite bool_decide_eq_true_2.
    + rewrite bool_decide_eq_false_2; [reflexivity |]. intros ->.
      apply Hex in Ha. congruence.
  - rewrite !andb_false_r.
    destruct (hoveredElement (self w)) as [a |]; rewrite ?andb_false_r;
      now destruct (hasClass (classes w) el (hoverClassName (self w))).
Qed.

(** One call of the handler enters a hover, leaves nothing hovered, or
    leaves the hovered element as it is. *)
Lemma onMousemove_hover_cases (h : Host) (w : World) (event : MouseEvent) :
  (hoveredElement (self w) = None /\
   is_Some (hoveredElement (self (_onMousemove h event w)))) \/
  hoveredElement (self (_onMousemove h event w)) = None \/
  hoveredElement (self (_onMousemove h event w)) = hoveredElement (self w).
Proof.
  unfold _onMousemove. destruct (useHelper (self w)); simpl; [| now right; right].
  set (w1 := _changeHelperPosition _ _ _).
  assert (H1 : self w1 = self w).
  { subst w1. now rewrite self_changeHelperPosition, self_setClassNameOnDragItem. }
  destruct (getNodeIdFromElement h (target event)) as [| | s] eqn:Hhit;
    try (right; right; now rewrite H1).
  destruct (truthy (JStr s)); [| right; right; now rewrite H1].
  destruct (getElementById h (JStr s)) as [el |] eqn:Hel.
  - rewrite (hoveredElement_applyMoveAction h s el) by exact Hel. rewrite H1.
    destruct (hoveredElement (self w)) as [a |] eqn:Ha; simpl.
    + destruct (_ || _); [right; left; reflexivity | right; right; reflexivity].
    + destruct (_isContain (self w) (getBoundingClientRect h el) (mousePos event)).
      * left. split; [reflexivity | eauto].
      * simpl. right; left. now destruct (_ || _).
  - unfold _applyMoveAction. rewrite Hel. right; right. now rewrite H1.
Qed.

Lemma onMousemove_no_switch (h : Host) (w : World) (event : MouseEvent) (a b : Element) :
  hoveredElement (self w) = Some a ->
  hoveredElement (self (_onMousemove h event w)) = Some b ->
  a = b.
Proof.
  intros Ha Hb.
  destruct (onMousemove_hover_cases h w event) as [[Hn _] | [Hn | Hk]]; congruence.
Qed.

(** However often the handler runs for one event, the hover gets from one
    element to another only through a call that leaves nothing hovered. *)
Lemma mousemoveEvent_switch (h : Host) (event : MouseEvent) (n : nat) (w : World)
    (a b : Element) :
  hoveredElement (self w) = Some a ->
  hoveredElement (self (mousemoveEvent h n event w)) = Some b ->
  a <> b ->
  exists k, k < n /\ hoveredElement (self (mousemoveEvent h k event w)) = None.
Proof.
  intros Ha. revert b. unfold mousemoveEvent.
  induction n as [| n IH]; intros b Hb Hab; simpl in Hb; [congruence |].
  destruct (hoveredElement (self (Nat.iter n (_onMousemove h event) w))) as [c |] eqn:Hc.
  - destruct (decide (a = c)) as [<- | Hac].
    + exfalso. apply Hab. exact (onMousemove_no_switch h _ event a b Hc Hb).
    + destruct (IH c eq_refl Hac) as (k & Hk & Hnone). exists k. split; [lia | exact Hnone].
  - exists n. split; [lia | exact Hc].
Qed.

(** C7 (amended): the hover class is on the hovered element and on no
    other, before and after every move sample, so at most one node is
    hovered at any time.  One call of the move handler that reaches the
    hover step, on a sample over the element of a node: when none is
    hovered, it enters the hover of that element if the element contains
    the pointer and leaves none hovered if not; when that element is the
    hovered one, it leaves the hover as it is if the element still contains
    the pointer and exits if not; when another element is hovered, it
    exits.  A call that does not reach the hover step (handlers not bound,
    [useHelper] off, no node under the pointer, no element for the node)
    leaves the hovered element as it is.  So no call takes the hover from
    one element to another, and when one event runs the handler several
    times the hover changes element only through a call that leaves
    nothing hovered: the old node is left before the new one is entered. *)
Theorem C7_hover_step (h : Host) (w : World) (event : MouseEvent) :
  (hoverClassName (self w) <> dragItemClassName ->
   hover_exact w -> hover_exact (step h w (Mousemove event))) /\
  (listening w = true -> useHelper (self w) = true ->
   hoverClassName (self w) <> dragItemClassName -> hover_exact w ->
   forall (nodeId : string) (el : Element),
     getNodeIdFromElement h (target event) = JStr nodeId -> nodeId <> EmptyString ->
     getElementById h (JStr nodeId) = Some el ->
     hoveredElement (self (step h w (Mousemove event))) =
     match hoveredElement (self w) with
     | None =>
         if _isContain (self w) (getBoundingClientRect h el) (mousePos event)
         then Some el else None
     | Some a =>
         if bool_decide (a = el) &&
            _isContain (self w) (getBoundingClientRect h el) (mousePos event)
         then Some a else None
     end) /\
  (listening w = false \/ useHelper (self w) = false \/
   truthy (getNodeIdFromElement h (target event)) = false \/
   (exists nodeId, getNodeIdFromElement h (target event) = JStr nodeId /\
                   getElementById h (JStr nodeId) = None) ->
   hoveredElement (self (step h w (Mousemove event))) = hoveredElement (self w)) /\
  (forall a b : Element,
     hoveredElement (self w) = Some a ->
     hoveredElement (self (step h w (Mousemove event))) = Some b ->
     a = b) /\
  (forall (bindings : nat) (a b : Element),
     hoveredElement (self w) = Some a ->
     hoveredElement (self (mousemoveEvent h bindings event w)) = Some b ->
     a <> b ->
     exists k, k < bindings /\
               hoveredElement (self (mousemoveEvent h k event w)) = None).
Proof.
  split; [| split; [| split; [| split]]].
  - intros Hne Hex. now apply hover_exact_step.
  - intros Hl Hu Hcls Hex nodeId el Hhit Hne Hel. simpl. rewrite Hl.
    now apply hover_call_exact with (nodeId := nodeId).
  - intros Hno. simpl. destruct (listening w) eqn:Hl; [| reflexivity].
    destruct Hno as [Hno | [Hno | [Hno | (nodeId & Hhit & Hel)]]]; [discriminate | | |].
    + unfold _onMousemove. now rewrite Hno.
    + destruct (useHelper (self w)) eqn:Hu.
      * rewrite (onMousemove_no_node h w event Hu Hno).
        now rewrite self_changeHelperPosition, self_setClassNameOnDragItem.
      * unfold _onMousemove. now rewrite Hu.
    + unfold _onMousemove. destruct (useHelper (self w)); simpl; [| reflexivity].
      rewrite Hhit. unfold _applyMoveAction. rewrite Hel.
      destruct (truthy (JStr nodeId));
        now rewrite self_changeHelperPosition, self_setClassNameOnDragItem.
  - intros a b Ha Hb. simpl in Hb. destruct (listening w); [| congruence].
    exact (onMousemove_no_switch h w event a b Ha Hb).
  - intros n a b. apply mousemoveEvent_switch.
Qed.

Lemma C7_hover_step_witness :
  hoveredElement (self (step demoHost over_a_middle (Mousemove (pointer "b" 10 30))))
    = None /\
  (exists k, k < 2 /\
     hoveredElement (self (mousemoveEvent demoHost k (pointer "b" 10 30) over_a_middle))
       = None).
Proof.
  assert (Hex : hover_exact over_a_middle).
  { apply (hover_exact_run demoHost
             [Mousedown (pointer "c" 10 50); Mousemove (pointer "a-text" 10 10)]
             (init ∅ sortableOptions)).
    - discriminate.
    - apply hover_exact_init. intros e. apply hasClass_empty. }
  split.
  - apply (proj1 (proj2 (C7_hover_step demoHost over_a_middle (pointer "b" 10 30)))
             eq_refl eq_refl ltac:(discriminate) Hex "b" "b" eq_refl ltac:(discriminate)
             eq_refl).
  - apply (proj2 (proj2 (proj2 (proj2
             (C7_hover_step demoHost over_a_middle (pointer "b" 10 30)))))
             2 "a" "b").
    + reflexivity.
    + reflexivity.
    + discriminate.
Defined.

(** ** The auto-open timer *)

Example hover_and_leave_opens_nothing :
  opened (effects (run demoHost (init ∅ noOptions) hoverAndLeave)) = [].
Proof. vm_compute. reflexivity. Qed.

Example hover_and_stay_opens_once :
  opened (effects (run demoHost (init ∅ noOptions) hoverAndStay)) = ["a"].
Proof. vm_compute. reflexivity. Qed.

(** Leaving the hover takes its timer out of the table. *)
Lemma unhover_cancels (w : World) (t : nat) :
  timer (self w) = Some t ->
  forall tm : Timer, tm ∈ timers (_unhover w) -> handle tm <> t.
Proof.
  intros Ht tm. unfold _unhover. rewrite Ht. simpl.
  rewrite list_elem_of_filter. tauto.
Qed.

Lemma tick_no_timers (w : World) :
  timers w = [] -> timers (tick w) = [] /\ effects (tick w) = effects w.
Proof. intros Hw. unfold tick. rewrite Hw. simpl. split; reflexivity. Qed.

Lemma elapse_no_timers (ms : nat) (w : World) :
  timers w = [] ->
  timers (Nat.iter ms tick w) = [] /\ effects (Nat.iter ms tick w) = effects w.
Proof.
  intros Hw. induction ms as [| ms [IHt IHe]]; simpl; [split; [exact Hw | reflexivity] |].
  destruct (tick_no_timers (Nat.iter ms tick w) IHt) as [-> ->].
  split; [reflexivity | exact IHe].
Qed.

Lemma opened_opens (fired : list Timer) :
  opened (map (fun tm => TreeOpen (openNode tm)) fired) = map openNode fired.
Proof. induction fired as [| tm fired IH]; simpl; [reflexivity | now f_equal]. Qed.

Lemma armed_inv_tick (w : World) : armed_inv w -> armed_inv (tick w).
Proof.
  unfold armed_inv, tick. intros Hinv.
  match goal with |- context [fold_left ?f ?l ?x] =>
    destruct (fold_emit_keeps l x) as (_ & _ & -> & -> & _ & ->) end.
  simpl. unfold opened in *. rewrite omap_app, length_app.
  fold (opened (map (fun tm => TreeOpen (openNode tm))
                  (filter (fun tm => due tm <= S (now w)) (timers w)))).
  rewrite opened_opens, length_map.
  pose proof (filter_app_complement (fun tm => due tm <= S (now w)) (timers w)) as Hp.
  apply Permutation_length in Hp. rewrite length_app in Hp. lia.
Qed.

Lemma armed_inv_hover (h : Host) (nodeId : string) (w : World) :
  armed_inv w -> armed_inv (_hover h nodeId w).
Proof.
  unfold armed_inv, _hover. intros Hinv.
  destruct (isLeaf h nodeId); simpl; [exact Hinv |].
  rewrite length_app. simpl. lia.
Qed.

Lemma armed_inv_unhover (w : World) : armed_inv w -> armed_inv (_unhover w).
Proof.
  unfold armed_inv, _unhover. intros Hinv.
  destruct (timer (self w)) as [t |]; simpl; [| exact Hinv].
  pose proof (length_filter (fun tm => handle tm <> t) (timers w)). lia.
Qed.

Lemma armed_inv_ext (w w' : World) :
  effects w' = effects w -> timers w' = timers w -> nextHandle w' = nextHandle w ->
  armed_inv w -> armed_inv w'.
Proof. unfold armed_inv. now intros -> -> ->. Qed.

Lemma armed_inv_setClassNameOnDragItem (h : Host) (type : string) (w : World) :
  armed_inv w -> armed_inv (_setClassNameOnDragItem h type w).
Proof.
  apply armed_inv_ext; unfold _setClassNameOnDragItem;
    now destruct (String.eqb type "add").
Qed.

Lemma armed_inv_reset (h : Host) (w : World) : armed_inv w -> armed_inv (_reset h w).
Proof.
  intros Hinv. unfold _reset.
  set (w1 := if isSortable (self w) then _ else w).
  assert (H1 : armed_inv w1).
  { subst w1. destruct (isSortable (self w)); exact Hinv. }
  set (w2 := match hoveredElement (self w1) with Some _ => _ | None => w1 end).
  assert (H2 : armed_inv w2).
  { subst w2. destruct (hoveredElement (self w1)); exact H1. }
  exact (armed_inv_setClassNameOnDragItem h "remove" w2 H2).
Qed.

Lemma armed_inv_step (h : Host) (w : World) (i : Input) :
  armed_inv w -> armed_inv (step h w i).
Proof.
  intros Hinv. destruct i as [event | event | event | ms]; simpl.
  - unfold _onMousedown. destruct (_ || _); [exact Hinv |]. simpl.
    now destruct (useHelper (self w)); [destruct (nodeText h _) |].
  - destruct (listening w); [| exact Hinv]. unfold _onMousemove.
    destruct (useHelper (self w)); simpl; [| exact Hinv].
    set (w1 := _changeHelperPosition _ _ _).
    assert (H1 : armed_inv w1).
    { exact (armed_inv_setClassNameOnDragItem h "add" w Hinv). }
    destruct (getNodeIdFromElement h (target event)) as [| | s]; try exact H1.
    destruct (truthy (JStr s)); [| exact H1].
    unfold _applyMoveAction.
    destruct (getElementById h (JStr s)) as [el |]; [| exact H1].
    match goal with |- armed_inv (if isSortable (self ?x) then _ else _) =>
      assert (Hx : armed_inv x);
      [| destruct (isSortable (self x)); [| exact Hx];
         match goal with |- context [_drawBoundaryLine _ _ ?b _] => now destruct b end]
    end.
    destruct (_ && _).
    + now apply armed_inv_hover.
    + destruct (_ || _); [now apply armed_inv_unhover | exact H1].
  - destruct (listening w); [| exact Hinv]. unfold _onMouseup.
    apply armed_inv_reset. unfold armed_inv in *. simpl.
    unfold opened in *. rewrite omap_app. simpl. rewrite app_nil_r. exact Hinv.
  - induction ms as [| ms IH]; simpl; [exact Hinv | now apply armed_inv_tick].
Qed.

(** The timer fires at most once per arming: at any moment of any run
    there are fewer [tree.open] calls than timer handles handed out. *)
Lemma opens_bounded (h : Host) (dom : ClassStore) (o : Options) (inputs : list Input) :
  length (opened (effects (run h (init dom o) inputs)))
  < nextHandle (run h (init dom o) inputs).
Proof.
  assert (H : armed_inv (run h (init dom o) inputs)).
  { assert (H0 : armed_inv (init dom o)) by (unfold armed_inv; simpl; lia).
    revert H0. generalize (init dom o).
    induction inputs as [| i inputs IH]; intros w Hw; [exact Hw |].
    simpl. apply IH. now apply armed_inv_step. }
  unfold armed_inv in H. lia.
Qed.

(** *** Releasing the mouse leaves the timer armed *)

Lemma timers_reset (h : Host) (w : World) :
  timers (_reset h w) = timers w /\ now (_reset h w) = now w.
Proof.
  unfold _reset, _setClassNameOnDragItem. simpl.
  destruct (isSortable (self w)); simpl; destruct (hoveredElement (self w)); split; reflexivity.
Qed.

Lemma timers_onMouseup (h : Host) (event : MouseEvent) (w : World) :
  timers (_onMouseup h event w) = timers w /\ now (_onMouseup h event w) = now w.
Proof.
  unfold _onMouseup.
  match goal with |- context [_reset h ?x] => destruct (timers_reset h x) as [-> ->] end.
  split; reflexivity.
Qed.

Lemma now_tick (w : World) : now (tick w) = S (now w).
Proof.
  unfold tick.
  match goal with |- context [fold_left ?f ?l ?x] =>
    assert (H : forall l0 x0, now (fold_left f l0 x0) = now x0)
      by (induction l0 as [| t l0 IH]; intros x0; simpl; [reflexivity | now rewrite IH]);
    now rewrite H
  end.
Qed.

Lemma now_elapse (ms : nat) (w : World) : now (Nat.iter ms tick w) = now w + ms.
Proof.
  induction ms as [| ms IH]; simpl; [lia |]. rewrite now_tick, IH. lia.
Qed.

(** A pending timer either fires at this tick or is still pending. *)
Lemma tick_fires (w : World) (tm : Timer) :
  tm ∈ timers w ->
  (due tm <= S (now w) /\ TreeOpen (openNode tm) ∈ effects (tick w)) \/
  (S (now w) < due tm /\ tm ∈ timers (tick w)).
Proof.
  intros Hin. unfold tick.
  match goal with |- context [fold_left ?f ?l ?x] =>
    destruct (fold_emit_keeps l x) as (_ & _ & -> & _ & _ & ->) end.
  simpl. destruct (decide (due tm <= S (now w))) as [Hd | Hd].
  - left. split; [exact Hd |]. apply elem_of_app. right.
    apply (list_elem_of_fmap_2 (fun t => TreeOpen (openNode t))).
    apply list_elem_of_filter. split; assumption.
  - right. split; [lia |]. apply list_elem_of_filter. split; assumption.
Qed.

Lemma effects_tick_mono (w : World) (e : Effect) : e ∈ effects w -> e ∈ effects (tick w).
Proof.
  intros Hin. unfold tick.
  match goal with |- context [fold_left ?f ?l ?x] =>
    destruct (fold_emit_keeps l x) as (_ & _ & _ & _ & _ & ->) end.
  simpl. apply elem_of_app. now left.
Qed.

(** A pending timer fires once its time has come. *)
Lemma elapse_fires (ms : nat) (w : World) (tm : Timer) :
  tm ∈ timers w -> 0 < ms -> due tm <= now w + ms ->
  TreeOpen (openNode tm) ∈ effects (Nat.iter ms tick w).
Proof.
  intros Hin Hms Hdue.
  assert (H : forall n,
             TreeOpen (openNode tm) ∈ effects (Nat.iter n tick w) \/
             (tm ∈ timers (Nat.iter n tick w) /\ (n = 0 \/ now w + n < due tm))).
  { induction n as [| n [IH | [IH Hn]]]; simpl.
    - right. split; [exact Hin | now left].
    - left. now apply effects_tick_mono.
    - destruct (tick_fires _ _ IH) as [[_ Hf] | [Hlt Hp]]; [now left |].
      right. split; [exact Hp |]. right. rewrite now_elapse in Hlt. lia. }
  destruct (H ms) as [Hf | [_ [H0 | Hlt]]]; [exact Hf | lia | lia].
Qed.

(** Whatever timer is pending when the mouse is released is still pending
    afterwards, and calls [tree.open] when its time comes. *)
Lemma timer_outlives_mouseup (h : Host) (w : World) (event : MouseEvent)
    (tm : Timer) (ms : nat) :
  tm ∈ timers w -> 0 < ms -> due tm <= now w + ms ->
  tm ∈ timers (step h w (Mouseup event)) /\
  TreeOpen (openNode tm) ∈ effects (run h w [Mouseup event; Elapse ms]).
Proof.
  intros Hin Hms Hdue.
  assert (Hk : timers (step h w (Mouseup event)) = timers w /\
               now (step h w (Mouseup event)) = now w).
  { simpl. destruct (listening w); [apply timers_onMouseup | split; reflexivity]. }
  destruct Hk as [Ht Hn]. split; [now rewrite Ht |].
  unfold run. cbn [fold_left]. change (step h ?x (Elapse ms)) with (Nat.iter ms tick x).
  apply elapse_fires; [now rewrite Ht | exact Hms | now rewrite Hn].
Qed.

(** C2: the code arms a one-shot timer and cancels it when the hover is
    left, but not when the drag ends.  Node [c] is held over the closed
    node [a] for 1000 of the 1500 milliseconds and released there: the
    drag is over, nothing is hovered, the handlers are unbound, yet the
    timer is still pending and 500 milliseconds later [tree.open] is
    called on [a]. *)
Theorem C2_timer_outlives_drag :
  let released := run demoHost (init ∅ noOptions)
                    [Mousedown (pointer "c" 10 50); Mousemove (pointer "a-text" 10 10);
                     Elapse 1000; Mouseup (pointer "a-text" 10 10)] in
  autoOpenDelay (self released) = 1500%Z /\
  now released = 1000 /\
  listening released = false /\
  currentNodeId (self released) = JNull /\
  hoveredElement (self released) = None /\
  timers released = [mkTimer 1 1500 "a"] /\
  effects released = [TreeMove (JStr "c") (JStr "a") (-1)] /\
  effects (run demoHost (init ∅ noOptions) quickDrop) =
    [TreeMove (JStr "c") (JStr "a") (-1); TreeOpen "a"].
Proof. vm_compute. repeat split. Qed.

(** * Further properties of the code *)

(** ** Drag eligibility *)

Lemma inArray_from_notin (i : Z) (x : string) (arr : list string) :
  (0 <= i)%Z -> (inArray_from i x arr = -1)%Z <-> x ∉ arr.
Proof.
  revert i. induction arr as [| a rest IH]; intros i Hi; simpl.
  - split; [intros _; apply not_elem_of_nil | reflexivity].
  - destruct (String.eqb_spec a x) as [-> | Hne].
    + split; [lia |]. intros Hn. exfalso. apply Hn. apply list_elem_of_here.
    + rewrite IH by lia. rewrite not_elem_of_cons. split; [| tauto].
      intros Hn. split; [congruence | exact Hn].
Qed.

Lemma inArray_found (x : string) (arr : list string) :
  negb (inArray x arr =? -1)%Z = true <-> x ∈ arr.
Proof.
  unfold inArray. rewrite negb_true_iff, Z.eqb_neq.
  rewrite (inArray_from_notin 0 x arr) by lia.
  split; [| tauto]. intros Hn. destruct (decide (x ∈ arr)); tauto.
Qed.

(** The iteration with early exit computes "some class name is rejected". *)
Lemma forEach_rejected_spec (rejected classNames : list string) (r : option bool) :
  default false (forEach_rejected rejected classNames r) = true <->
  (exists c, c ∈ classNames /\ c ∈ rejected) \/ (classNames = [] /\ r = Some true).
Proof.
  revert r. induction classNames as [| c rest IH]; intros r; simpl.
  - split.
    + intros H. right. split; [reflexivity |]. destruct r as [[|] |]; simpl in H; congruence.
    + intros [(c & Hc & _) | [_ ->]]; [| reflexivity]. now apply not_elem_of_nil in Hc.
  - destruct (negb (inArray c rejected =? -1)%Z) eqn:Hc; simpl.
    + apply inArray_found in Hc. split; [| reflexivity]. intros _. left.
      exists c. split; [apply list_elem_of_here | exact Hc].
    + rewrite IH. split.
      * intros [(c' & Hin & Hrej) | [_ [=]]]. left. exists c'. split; [| exact Hrej].
        now apply list_elem_of_further.
      * intros [(c' & Hin & Hrej) | [[=] _]]. left. exists c'. split; [| exact Hrej].
        apply elem_of_cons in Hin as [-> | Hin]; [| exact Hin].
        apply inArray_found in Hrej. congruence.
Qed.

Lemma isNotDraggable_iff (h : Host) (w : World) (tgt : Element) :
  _isNotDraggable h w tgt = true <->
  toUpperCase (tagName h tgt) ∈ rejectedTagNames (self w) \/
  exists c, c ∈ split_classNames (getClass (classes w) tgt) /\
            c ∈ rejectedClassNames (self w).
Proof.
  unfold _isNotDraggable.
  destruct (negb (inArray (toUpperCase (tagName h tgt)) (rejectedTagNames (self w)) =? -1)%Z)
    eqn:Htag.
  - apply inArray_found in Htag. split; [now left | reflexivity].
  - rewrite forEach_rejected_spec. split.
    + intros [H | [H _]]; [now right |].
      destruct (getClass (classes w) tgt); discriminate.
    + intros [H | H]; [| now left].
      apply inArray_found in H. congruence.
Qed.

(** X1: an element is refused as a drag handle exactly when its tag name,
    in upper case, is one of the rejected tag names or one of its class
    names is one of the rejected class names. *)
Theorem X1_isNotDraggable_iff (h : Host) (w : World) (tgt : Element) :
  _isNotDraggable h w tgt = true <->
  toUpperCase (tagName h tgt) ∈ rejectedTagNames (self w) \/
  exists c, c ∈ split_classNames (getClass (classes w) tgt) /\
            c ∈ rejectedClassNames (self w).
Proof. apply isNotDraggable_iff. Qed.

(** ** The configuration is never reassigned *)

Lemma run_invariant (P : World -> Prop) (h : Host) :
  (forall w i, P w -> P (step h w i)) ->
  forall inputs w, P w -> P (run h w inputs).
Proof.
  intros Hstep inputs. induction inputs as [| i inputs IH]; intros w Hw; [exact Hw |].
  simpl. apply IH. now apply Hstep.
Qed.

Lemma config_hover (h : Host) (nodeId : string) (w : World) :
  config (self (_hover h nodeId w)) = config (self w).
Proof. unfold _hover. now destruct (isLeaf h nodeId). Qed.

Lemma config_unhover (w : World) : config (self (_unhover w)) = config (self w).
Proof. unfold _unhover. now destruct (timer (self w)). Qed.

Lemma config_drawBoundaryLine (h : Host) (rect : Rect) (b : option BoundaryType)
    (w : World) :
  config (self (_drawBoundaryLine h rect b w)) = config (self w).
Proof. now destruct b. Qed.

Lemma config_applyMoveAction (h : Host) (nodeId : string) (mouse : MousePos) (w : World) :
  config (self (_applyMoveAction h nodeId mouse w)) = config (self w).
Proof.
  unfold _applyMoveAction.
  destruct (getElementById h (JStr nodeId)) as [el |]; [| reflexivity].
  match goal with |- config (self (if isSortable (self ?x) then _ else _)) = _ =>
    assert (Hx : config (self x) = config (self w));
    [| destruct (isSortable (self x)); [rewrite config_drawBoundaryLine |]; exact Hx]
  end.
  destruct (_ && _); [now rewrite config_hover |].
  destruct (_ || _); [apply config_unhover | reflexivity].
Qed.

Lemma config_onMousemove (h : Host) (event : MouseEvent) (w : World) :
  config (self (_onMousemove h event w)) = config (self w).
Proof.
  unfold _onMousemove. destruct (useHelper (self w)); simpl; [| reflexivity].
  set (w1 := _changeHelperPosition _ _ _).
  assert (H1 : config (self w1) = config (self w)).
  { subst w1. now rewrite self_changeHelperPosition, self_setClassNameOnDragItem. }
  destruct (getNodeIdFromElement h (target event)) as [| | s]; try exact H1.
  destruct (truthy (JStr s)); [| exact H1].
  now rewrite config_applyMoveAction.
Qed.

Lemma config_reset (h : Host) (w : World) : config (self (_reset h w)) = config (self w).
Proof.
  unfold _reset.
  cbn [self set_listening update set_self set_helperStyle].
  rewrite self_setClassNameOnDragItem.
  destruct (isSortable (self w)); cbn; now destruct (hoveredElement (self w)).
Qed.

Lemma config_onMousedown (h : Host) (event : MouseEvent) (w : World) :
  config (self (_onMousedown h event w)) = config (self w).
Proof.
  unfold _onMousedown. destruct (_ || _); [reflexivity |]. simpl.
  now destruct (useHelper (self w)); [destruct (nodeText h _) |].
Qed.

Lemma config_step (h : Host) (w : World) (i : Input) :
  config (self (step h w i)) = config (self w).
Proof.
  destruct i as [event | event | event | ms]; simpl.
  - apply config_onMousedown.
  - destruct (listening w); [apply config_onMousemove | reflexivity].
  - destruct (listening w); [| reflexivity]. unfold _onMouseup. now rewrite config_reset.
  - now destruct (elapse_keeps ms w) as (-> & _).
Qed.

Lemma config_run (h : Host) (inputs : list Input) (w : World) :
  config (self (run h w inputs)) = config (self w).
Proof.
  apply (run_invariant (fun w' => config (self w') = config (self w)) h); [| reflexivity].
  intros w' i Hw'. now rewrite config_step.
Qed.

(** X2: whatever happens after construction, the feature works with the
    configuration it was built with: no handler and no timer changes the
    rejected tag and class names, the two flags, the helper offset, the
    delay, the margins or the three class names. *)
Theorem X2_config_is_kept (h : Host) (dom : ClassStore) (o : Options)
    (inputs : list Input) :
  config (self (run h (init dom o) inputs)) = config (self (init dom o)).
Proof. apply config_run. Qed.

(** X3: the tags INPUT, BUTTON and UL are refused as drag handles under
    every configuration and at every moment, in whatever case the document
    spells them: a mousedown on such an element changes nothing. *)
Theorem X3_builtin_tags_never_drag (h : Host) (dom : ClassStore) (o : Options)
    (inputs : list Input) (event : MouseEvent) :
  toUpperCase (tagName h (target event)) ∈ ["INPUT"; "BUTTON"; "UL"] ->
  step h (run h (init dom o) inputs) (Mousedown event) = run h (init dom o) inputs.
Proof.
  intros Htag. simpl. unfold _onMousedown.
  assert (Hnd : _isNotDraggable h (run h (init dom o) inputs) (target event) = true).
  { apply isNotDraggable_iff. left.
    pose proof (config_run h inputs (init dom o)) as Hc.
    assert (Hr : rejectedTagNames (self (run h (init dom o) inputs)) =
                 rejectedTagNames (self (init dom o))) by (unfold config in Hc; congruence).
    rewrite Hr.
    change (rejectedTagNames (self (init dom o)))
      with (rejectedTagNames0 ++ default [] (opt_rejectedTagNames (extend defaultOptions o))).
    apply elem_of_app. now left. }
  rewrite Hnd. now rewrite orb_true_r.
Qed.

Lemma X3_builtin_tags_never_drag_witness :
  step demoHost over_a_middle (Mousedown (pointer "page" 10 30)) = over_a_middle.
Proof.
  apply (X3_builtin_tags_never_drag demoHost ∅ sortableOptions
           [Mousedown (pointer "c" 10 50); Mousemove (pointer "a-text" 10 10)]
           (pointer "page" 10 30)).
  vm_compute. apply list_elem_of_further, list_elem_of_further, list_elem_of_here.
Defined.

(** ** Hovering and boundary zones exclude each other *)

Lemma contained_no_zone (d : Draggable) (rect : Rect) (mouse : MousePos) :
  isSortable d = true -> _isContain d rect mouse = true ->
  _getBoundaryType d rect mouse = None.
Proof.
  intros Hs Hc. apply (isContain_sortable d rect mouse Hs) in Hc as (_ & Ht & Hb).
  apply zone_none; lra.
Qed.

(** X4: in sortable mode a pointer that the containment test accepts lies
    in no boundary zone: the area where a drop goes into a node and the
    two strips where it goes beside it do not overlap, whatever the
    rectangle and the margins. *)
Theorem X4_contained_has_no_zone (d : Draggable) (rect : Rect) (mouse : MousePos) :
  isSortable d = true -> _isContain d rect mouse = true ->
  _getBoundaryType d rect mouse = None.
Proof. apply contained_no_zone. Qed.

Lemma X4_contained_has_no_zone_witness :
  _getBoundaryType (self dragging_c) (mkRect 0 20 0 100) (mkPos 10 10) = None.
Proof.
  apply (X4_contained_has_no_zone (self dragging_c) (mkRect 0 20 0 100) (mkPos 10 10));
    reflexivity.
Defined.

(** The two if-tests of [_applyMoveAction] leave an element hovered only
    when the pointer is contained in the element of the sample. *)
Lemma hovered_after_sample_contained (h : Host) (nodeId : string) (el : Element)
    (mouse : MousePos) (w : World) :
  getElementById h (JStr nodeId) = Some el ->
  is_Some (hoveredElement (self (_applyMoveAction h nodeId mouse w))) ->
  _isContain (self w) (getBoundingClientRect h el) mouse = true.
Proof.
  intros Hel. rewrite (hoveredElement_applyMoveAction h nodeId el) by exact Hel.
  destruct (_isContain (self w) (getBoundingClientRect h el) mouse); [reflexivity |].
  rewrite andb_false_r.
  destruct (hasClass (classes w) el (hoverClassName (self w))); simpl;
    intros [x Hx]; discriminate.
Qed.

Lemma isSortable_applyMoveAction (h : Host) (nodeId : string) (mouse : MousePos)
    (w : World) :
  isSortable (self (_applyMoveAction h nodeId mouse w)) = isSortable (self w).
Proof.
  pose proof (config_applyMoveAction h nodeId mouse w) as Hc.
  unfold config in Hc. congruence.
Qed.

Lemma zone_inv_applyMoveAction (h : Host) (nodeId : string) (mouse : MousePos)
    (w : World) :
  zone_inv w -> zone_inv (_applyMoveAction h nodeId mouse w).
Proof.
  intros Hinv. destruct (getElementById h (JStr nodeId)) as [el |] eqn:Hel.
  - unfold zone_inv. rewrite isSortable_applyMoveAction.
    rewrite (movingLineType_applyMoveAction h nodeId el) by exact Hel.
    destruct (isSortable (self w)) eqn:Hs.
    + intros [Hf | Hh]; [discriminate |].
      apply (contained_no_zone _ _ _ Hs).
      now apply (hovered_after_sample_contained h nodeId el mouse w Hel).
    + intros _. apply Hinv. now left.
  - unfold _applyMoveAction. now rewrite Hel.
Qed.

Lemma zone_inv_step (h : Host) (w : World) (i : Input) :
  zone_inv w -> zone_inv (step h w i).
Proof.
  intros Hinv. destruct i as [event | event | event | ms]; simpl.
  - unfold _onMousedown. destruct (_ || _); [exact Hinv |]. simpl.
    now destruct (useHelper (self w)); [destruct (nodeText h _) |].
  - destruct (listening w); [| exact Hinv]. unfold _onMousemove.
    destruct (useHelper (self w)); simpl; [| exact Hinv].
    set (w1 := _changeHelperPosition _ _ _).
    assert (H1 : zone_inv w1).
    { unfold zone_inv. subst w1.
      now rewrite self_changeHelperPosition, self_setClassNameOnDragItem. }
    destruct (getNodeIdFromElement h (target event)) as [| | s]; try exact H1.
    destruct (truthy (JStr s)); [| exact H1].
    now apply zone_inv_applyMoveAction.
  - destruct (listening w); [| exact Hinv]. intros _. unfold _onMouseup, _reset.
    cbn [self set_listening update set_self movingLineType set_movingLineType].
    reflexivity.
  - unfold zone_inv. now destruct (elapse_keeps ms w) as (-> & _).
Qed.

Lemma zone_inv_init (dom : ClassStore) (o : Options) : zone_inv (init dom o).
Proof. intros _. reflexivity. Qed.

Lemma zone_inv_run (h : Host) (dom : ClassStore) (o : Options) (inputs : list Input) :
  zone_inv (run h (init dom o) inputs).
Proof.
  apply (run_invariant zone_inv h); [apply zone_inv_step | apply zone_inv_init].
Qed.

(** X5: at every moment of every run, a zone (top or bottom) is recorded
    only in sortable mode and only while no node is hovered: a hovered node
    and a boundary line are never there together. *)
Theorem X5_hover_excludes_zone (h : Host) (dom : ClassStore) (o : Options)
    (inputs : list Input) :
  (isSortable (self (run h (init dom o) inputs)) = false ->
   movingLineType (self (run h (init dom o) inputs)) = None) /\
  (is_Some (hoveredElement (self (run h (init dom o) inputs))) ->
   movingLineType (self (run h (init dom o) inputs)) = None).
Proof.
  pose proof (zone_inv_run h dom o inputs) as Hinv. unfold zone_inv in Hinv.
  split; intros H; apply Hinv; [now left | now right].
Qed.

(** ** Out of sortable mode every drop goes into a node *)

Lemma moves_snoc_move (log : list Effect) (n p : jsid) (i : Z) :
  moves (log ++ [TreeMove n p i]) = moves log ++ [(n, p, i)].
Proof. unfold moves. now rewrite omap_app. Qed.

Lemma moves_tick (w : World) : moves (effects (tick w)) = moves (effects w).
Proof.
  unfold tick.
  match goal with |- context [fold_left ?f ?l ?x] =>
    destruct (fold_emit_keeps l x) as (_ & _ & _ & _ & _ & ->) end.
  simpl. unfold moves. rewrite omap_app.
  match goal with |- _ ++ ?r = _ => assert (Hr : r = []); [| now rewrite Hr, app_nil_r] end.
  induction (filter _ _) as [| tm l IH]; [reflexivity | exact IH].
Qed.

Lemma moves_elapse (ms : nat) (w : World) :
  moves (effects (Nat.iter ms tick w)) = moves (effects w).
Proof. induction ms as [| ms IH]; simpl; [reflexivity | now rewrite moves_tick]. Qed.

Lemma effects_hover (h : Host) (nodeId : string) (w : World) :
  effects (_hover h nodeId w) = effects w /\ listening (_hover h nodeId w) = listening w.
Proof. unfold _hover. now destruct (isLeaf h nodeId). Qed.

Lemma effects_unhover (w : World) :
  effects (_unhover w) = effects w /\ listening (_unhover w) = listening w.
Proof. unfold _unhover. now destruct (timer (self w)). Qed.

Lemma effects_applyMoveAction (h : Host) (nodeId : string) (mouse : MousePos) (w : World) :
  effects (_applyMoveAction h nodeId mouse w) = effects w /\
  listening (_applyMoveAction h nodeId mouse w) = listening w.
Proof.
  unfold _applyMoveAction.
  destruct (getElementById h (JStr nodeId)) as [el |]; [| now split].
  match goal with |- effects (if isSortable (self ?x) then _ else _) = _ /\ _ =>
    assert (Hx : effects x = effects w /\ listening x = listening w);
    [| destruct (isSortable (self x)); [| exact Hx];
       match goal with |- context [_drawBoundaryLine _ _ ?b _] => now destruct b end]
  end.
  destruct (_ && _).
  - destruct (effects_hover h nodeId (update (set_hoveredElement (Some el)) w)) as [-> ->].
    now split.
  - destruct (_ || _); [apply effects_unhover | now split].
Qed.

Lemma effects_onMousemove (h : Host) (event : MouseEvent) (w : World) :
  effects (_onMousemove h event w) = effects w /\
  listening (_onMousemove h event w) = listening w.
Proof.
  unfold _onMousemove. destruct (useHelper (self w)); simpl; [| now split].
  set (w1 := _changeHelperPosition _ _ _).
  assert (H1 : effects w1 = effects w /\ listening w1 = listening w).
  { subst w1. unfold _changeHelperPosition, _setClassNameOnDragItem. simpl. now split. }
  destruct (getNodeIdFromElement h (target event)) as [| | s]; try exact H1.
  destruct (truthy (JStr s)); [| exact H1].
  destruct (effects_applyMoveAction h s (mousePos event) w1) as [-> ->]. exact H1.
Qed.

Lemma effects_onMousedown (h : Host) (event : MouseEvent) (w : World) :
  effects (_onMousedown h event w) = effects w.
Proof.
  unfold _onMousedown. destruct (_ || _); [reflexivity |]. simpl.
  now destruct (useHelper (self w)); [destruct (nodeText h _) |].
Qed.

(** With no zone recorded, the moves of a log all carry index -1. *)
Lemma appends_step (h : Host) (w : World) (i : Input) :
  movingLineType (self w) = None ->
  Forall (fun m => snd m = (-1)%Z) (moves (effects w)) ->
  Forall (fun m => snd m = (-1)%Z) (moves (effects (step h w i))).
Proof.
  intros Hz Hall. destruct i as [event | event | event | ms]; simpl.
  - now rewrite effects_onMousedown.
  - destruct (listening w); [| exact Hall].
    now destruct (effects_onMousemove h event w) as [-> _].
  - destruct (listening w); [| exact Hall].
    rewrite effects_onMouseup, moves_snoc_move. apply Forall_app. split; [exact Hall |].
    apply Forall_singleton. unfold _getIndexToInsert. now rewrite Hz.
  - now rewrite moves_elapse.
Qed.

(** X6: out of sortable mode every [tree.move] the feature ever issues has
    index -1: a drop can only put the node into another one, never between
    siblings. *)
Theorem X6_plain_mode_only_appends (h : Host) (dom : ClassStore) (o : Options)
    (inputs : list Input) :
  isSortable (self (init dom o)) = false ->
  Forall (fun m => snd m = (-1)%Z) (moves (effects (run h (init dom o) inputs))).
Proof.
  intros Hs.
  assert (Hall : zone_inv (run h (init dom o) inputs) /\
                 isSortable (self (run h (init dom o) inputs)) = false /\
                 Forall (fun m => snd m = (-1)%Z)
                   (moves (effects (run h (init dom o) inputs)))).
  { apply (run_invariant
             (fun w => zone_inv w /\ isSortable (self w) = false /\
                       Forall (fun m => snd m = (-1)%Z) (moves (effects w))) h).
    - intros w j (Hz & Hsw & Hf). split; [now apply zone_inv_step |]. split.
      + pose proof (config_step h w j) as Hc. unfold config in Hc. congruence.
      + apply appends_step; [| exact Hf]. apply Hz. now left.
    - split; [apply zone_inv_init |]. split; [exact Hs | constructor]. }
  now destruct Hall as (_ & _ & Hf).
Qed.

Lemma X6_plain_mode_only_appends_witness :
  Forall (fun m => snd m = (-1)%Z)
    (moves (effects (run demoHost (init ∅ noOptions)
                       [Mousedown (pointer "c" 10 50); Mousemove (pointer "a-text" 10 2);
                        Mouseup (pointer "a-text" 10 2);
                        Mousedown (pointer "b" 10 30); Mouseup (pointer "page" 10 70)]))).
Proof.
  apply (X6_plain_mode_only_appends demoHost ∅ noOptions). reflexivity.
Defined.

(** ** What a move sample and a tick leave alone *)

Ltac break_handlers :=
  unfold _applyMoveAction, _hover, _unhover, _drawBoundaryLine, setTimeout, clearTimeout;
  repeat (cbn;
          match goal with
          | |- context [match ?x with _ => _ end] => destruct x
          end);
  cbn; try reflexivity.

Lemma frame_applyMoveAction (h : Host) (nodeId : string) (mouse : MousePos) (w : World) :
  currentNodeId (self (_applyMoveAction h nodeId mouse w)) = currentNodeId (self w) /\
  helperStyle (_applyMoveAction h nodeId mouse w) = helperStyle w /\
  helperHTML (_applyMoveAction h nodeId mouse w) = helperHTML w /\
  now (_applyMoveAction h nodeId mouse w) = now w.
Proof. repeat split; break_handlers. Qed.

Lemma lineStyle_applyMoveAction_plain (h : Host) (nodeId : string) (mouse : MousePos)
    (w : World) :
  isSortable (self w) = false ->
  lineStyle (_applyMoveAction h nodeId mouse w) = lineStyle w.
Proof.
  intros Hs. unfold _applyMoveAction.
  destruct (getElementById h (JStr nodeId)) as [el |]; [| reflexivity].
  match goal with |- lineStyle (if isSortable (self ?x) then _ else _) = _ =>
    assert (Hx : isSortable (self x) = false /\ lineStyle x = lineStyle w)
  end.
  { rewrite <- Hs. split; break_handlers. }
  destruct Hx as [-> Hx]. exact Hx.
Qed.

Lemma frame_onMousemove (h : Host) (event : MouseEvent) (w : World) :
  currentNodeId (self (_onMousemove h event w)) = currentNodeId (self w) /\
  now (_onMousemove h event w) = now w.
Proof.
  unfold _onMousemove. destruct (useHelper (self w)); simpl; [| now split].
  set (w1 := _changeHelperPosition _ _ _).
  assert (H1 : currentNodeId (self w1) = currentNodeId (self w) /\ now w1 = now w).
  { subst w1. rewrite self_changeHelperPosition, self_setClassNameOnDragItem.
    unfold _changeHelperPosition, _setClassNameOnDragItem. simpl. now split. }
  destruct (getNodeIdFromElement h (target event)) as [| | s]; try exact H1.
  destruct (truthy (JStr s)); [| exact H1].
  destruct (frame_applyMoveAction h s (mousePos event) w1) as (-> & _ & _ & ->). exact H1.
Qed.

Lemma styles_tick (w : World) :
  helperStyle (tick w) = helperStyle w /\ lineStyle (tick w) = lineStyle w.
Proof.
  unfold tick.
  match goal with |- context [fold_left ?f ?l ?x] =>
    assert (H : forall l0 x0, helperStyle (fold_left f l0 x0) = helperStyle x0 /\
                              lineStyle (fold_left f l0 x0) = lineStyle x0)
      by (induction l0 as [| t l0 IH]; intros x0; simpl;
          [now split | destruct (IH (emit (TreeOpen (openNode t)) x0)) as [-> ->]; now split]);
    destruct (H l x) as [-> ->]
  end.
  now split.
Qed.

Lemma styles_elapse (ms : nat) (w : World) :
  helperStyle (Nat.iter ms tick w) = helperStyle w /\
  lineStyle (Nat.iter ms tick w) = lineStyle w.
Proof.
  induction ms as [| ms IH]; simpl; [now split |].
  destruct (styles_tick (Nat.iter ms tick w)) as [-> ->]. exact IH.
Qed.

(** What [_reset] leaves behind. *)
Lemma reset_fields (h : Host) (w : World) :
  listening (_reset h w) = false /\
  currentNodeId (self (_reset h w)) = JNull /\
  hoveredElement (self (_reset h w)) = None /\
  movingLineType (self (_reset h w)) = None /\
  display (helperStyle (_reset h w)) = DisplayNone /\
  (isSortable (self w) = true -> display (lineStyle (_reset h w)) = DisplayNone) /\
  (isSortable (self w) = false -> lineStyle (_reset h w) = lineStyle w) /\
  effects (_reset h w) = effects w.
Proof.
  split; [reflexivity |]. split; [reflexivity |].
  split.
  { unfold _reset, _setClassNameOnDragItem.
    destruct (isSortable (self w)); cbn;
      destruct (hoveredElement (self w)) eqn:Hh; cbn; try rewrite Hh; reflexivity. }
  split; [reflexivity |]. split; [reflexivity |].
  split; [| split; [| apply effects_reset]].
  - intros Hs. unfold _reset, _setClassNameOnDragItem. rewrite Hs. cbn.
    now destruct (hoveredElement (self w)).
  - intros Hs. unfold _reset, _setClassNameOnDragItem. rewrite Hs. cbn.
    now destruct (hoveredElement (self w)).
Qed.

Lemma onMouseup_fields (h : Host) (event : MouseEvent) (w : World) :
  listening (_onMouseup h event w) = false /\
  currentNodeId (self (_onMouseup h event w)) = JNull /\
  hoveredElement (self (_onMouseup h event w)) = None /\
  movingLineType (self (_onMouseup h event w)) = None /\
  display (helperStyle (_onMouseup h event w)) = DisplayNone /\
  (isSortable (self w) = true -> display (lineStyle (_onMouseup h event w)) = DisplayNone) /\
  (isSortable (self w) = false -> lineStyle (_onMouseup h event w) = lineStyle w).
Proof.
  unfold _onMouseup.
  match goal with |- context [_reset h ?x] =>
    destruct (reset_fields h x) as (Hf & Hc & Hh & Hm & Hd & Hon & Hoff & _)
  end.
  repeat split; assumption.
Qed.

(** ** The boundary line is shown exactly while a zone is recorded *)

Lemma line_inv_applyMoveAction (h : Host) (nodeId : string) (mouse : MousePos)
    (w : World) :
  line_inv w -> line_inv (_applyMoveAction h nodeId mouse w).
Proof.
  intros Hinv. destruct (isSortable (self w)) eqn:Hs.
  - unfold _applyMoveAction.
    destruct (getElementById h (JStr nodeId)) as [el |]; [| exact Hinv].
    match goal with |- line_inv (if isSortable (self ?x) then _ else _) =>
      assert (Hx : isSortable (self x) = true) by (rewrite <- Hs; break_handlers);
      rewrite Hx
    end.
    match goal with |- line_inv (_drawBoundaryLine _ _ ?b _) => destruct b end;
      unfold line_inv; simpl; split; intros H; try discriminate; eauto.
    destruct H as [x Hx']. discriminate.
  - unfold line_inv.
    rewrite (lineStyle_applyMoveAction_plain h nodeId mouse w Hs).
    destruct (getElementById h (JStr nodeId)) as [el |] eqn:Hel.
    + rewrite (movingLineType_applyMoveAction h nodeId el) by exact Hel.
      rewrite Hs. exact Hinv.
    + unfold _applyMoveAction. rewrite Hel. exact Hinv.
Qed.

Lemma line_inv_step (h : Host) (w : World) (i : Input) :
  line_inv w /\ zone_inv w -> line_inv (step h w i) /\ zone_inv (step h w i).
Proof.
  intros [Hl Hz]. split; [| now apply zone_inv_step].
  destruct i as [event | event | event | ms]; simpl.
  - unfold _onMousedown. destruct (_ || _); [exact Hl |]. simpl.
    now destruct (useHelper (self w)); [destruct (nodeText h _) |].
  - destruct (listening w); [| exact Hl]. unfold _onMousemove.
    destruct (useHelper (self w)); simpl; [| exact Hl].
    set (w1 := _changeHelperPosition _ _ _).
    assert (H1 : line_inv w1).
    { unfold line_inv. subst w1.
      rewrite self_changeHelperPosition, self_setClassNameOnDragItem.
      unfold _changeHelperPosition, _setClassNameOnDragItem. simpl. exact Hl. }
    destruct (getNodeIdFromElement h (target event)) as [| | s]; try exact H1.
    destruct (truthy (JStr s)); [| exact H1].
    now apply line_inv_applyMoveAction.
  - destruct (listening w); [| exact Hl].
    destruct (onMouseup_fields h event w) as (_ & _ & _ & Hm & _ & Hon & Hoff).
    unfold line_inv. rewrite Hm.
    destruct (isSortable (self w)) eqn:Hs.
    + rewrite Hon by reflexivity. split; [discriminate | intros [x Hx]; discriminate].
    + rewrite Hoff by reflexivity. simpl. split; [| intros [x Hx]; discriminate].
      intros Hb. apply Hl in Hb. rewrite Hz in Hb by now left. exact Hb.
  - unfold line_inv. destruct (elapse_keeps ms w) as (-> & _).
    now destruct (styles_elapse ms w) as (_ & ->).
Qed.

(** X7: at every moment of every run the boundary line is displayed
    exactly while a zone (top or bottom) is recorded; in particular it is
    hidden again once the node is dropped. *)
Theorem X7_line_shown_iff_zone (h : Host) (dom : ClassStore) (o : Options)
    (inputs : list Input) :
  display (lineStyle (run h (init dom o) inputs)) = DisplayBlock <->
  is_Some (movingLineType (self (run h (init dom o) inputs))).
Proof.
  assert (H : line_inv (run h (init dom o) inputs) /\ zone_inv (run h (init dom o) inputs)).
  { apply (run_invariant (fun w => line_inv w /\ zone_inv w) h).
    - intros w i. apply line_inv_step.
    - split; [| apply zone_inv_init].
      unfold line_inv. simpl. split; [discriminate | intros [x Hx]; discriminate]. }
  exact (proj1 H).
Qed.

(** ** Between drags *)

Lemma idle_inv_step (h : Host) (w : World) (i : Input) :
  idle_inv w -> idle_inv (step h w i).
Proof.
  intros Hinv. destruct i as [event | event | event | ms]; simpl.
  - unfold _onMousedown. destruct (_ || _); [exact Hinv |]. simpl.
    destruct (useHelper (self w)); [destruct (nodeText h _) |];
      try (intros Hl; discriminate). exact Hinv.
  - destruct (listening w) eqn:Hl; [| exact Hinv].
    intros Hl'. destruct (effects_onMousemove h event w) as [_ Hk]. congruence.
  - destruct (listening w) eqn:Hl; [| exact Hinv]. intros _.
    destruct (onMouseup_fields h event w) as (_ & _ & Hh & Hm & Hd & _).
    now rewrite Hh, Hm, Hd.
  - unfold idle_inv. destruct (elapse_keeps ms w) as (-> & _ & ->).
    now destruct (styles_elapse ms w) as (-> & _).
Qed.

(** X8: whenever no drag is in progress (the mousemove and mouseup
    handlers are not bound) nothing is hovered, no zone is recorded and the
    helper element is hidden: a finished drag leaves none of them behind. *)
Theorem X8_idle_is_clean (h : Host) (dom : ClassStore) (o : Options)
    (inputs : list Input) :
  listening (run h (init dom o) inputs) = false ->
  hoveredElement (self (run h (init dom o) inputs)) = None /\
  movingLineType (self (run h (init dom o) inputs)) = None /\
  display (helperStyle (run h (init dom o) inputs)) = DisplayNone.
Proof.
  apply (run_invariant idle_inv h); [apply idle_inv_step |].
  intros _. repeat split.
Qed.

Lemma X8_idle_is_clean_witness :
  hoveredElement (self (run demoHost (init ∅ sortableOptions) quickDrop)) = None /\
  movingLineType (self (run demoHost (init ∅ sortableOptions) quickDrop)) = None /\
  display (helperStyle (run demoHost (init ∅ sortableOptions) quickDrop)) = DisplayNone.
Proof.
  apply (X8_idle_is_clean demoHost ∅ sortableOptions quickDrop).
  vm_compute. reflexivity.
Defined.

(** X9: a mouseup during a drag ends it.  It issues exactly one
    [tree.move], for the node picked up; afterwards nothing is hovered, no
    zone is recorded, no node is held, the helper is hidden, and further
    mousemove and mouseup events change nothing until the next
    mousedown. *)
Theorem X9_mouseup_ends_drag (h : Host) (w : World) (event : MouseEvent) :
  listening w = true ->
  (exists p i, effects (step h w (Mouseup event)) =
               effects w ++ [TreeMove (currentNodeId (self w)) p i]) /\
  listening (step h w (Mouseup event)) = false /\
  currentNodeId (self (step h w (Mouseup event))) = JNull /\
  hoveredElement (self (step h w (Mouseup event))) = None /\
  movingLineType (self (step h w (Mouseup event))) = None /\
  display (helperStyle (step h w (Mouseup event))) = DisplayNone /\
  (forall event',
     step h (step h w (Mouseup event)) (Mousemove event') = step h w (Mouseup event) /\
     step h (step h w (Mouseup event)) (Mouseup event') = step h w (Mouseup event)).
Proof.
  intros Hl. simpl. rewrite Hl. split.
  - eexists _, _. apply effects_onMouseup.
  - destruct (onMouseup_fields h event w) as (Hf & Hc & Hh & Hm & Hd & _).
    rewrite Hf, Hc, Hh, Hm, Hd. repeat split.
Qed.

Lemma X9_mouseup_ends_drag_witness :
  listening (step demoHost over_a_middle (Mouseup (pointer "a-text" 10 10))) = false.
Proof.
  apply (X9_mouseup_ends_drag demoHost over_a_middle (pointer "a-text" 10 10)).
  reflexivity.
Defined.

(** ** One move per drag *)

Lemma moves_step (h : Host) (w : World) (i : Input) :
  moves (effects (step h w i)) = moves (effects w) \/
  (exists event p j, i = Mouseup event /\ listening w = true /\
     listening (step h w i) = false /\
     moves (effects (step h w i)) = moves (effects w) ++ [(currentNodeId (self w), p, j)]).
Proof.
  destruct i as [event | event | event | ms]; simpl.
  - left. now rewrite effects_onMousedown.
  - left. destruct (listening w); [| reflexivity].
    now destruct (effects_onMousemove h event w) as [-> _].
  - destruct (listening w); [| now left]. right.
    eexists event, _, _. split; [reflexivity |]. split; [reflexivity |].
    split; [apply onMouseup_fields |].
    now rewrite effects_onMouseup, moves_snoc_move.
  - left. apply moves_elapse.
Qed.

Lemma listening_step (h : Host) (w : World) (i : Input) :
  listening (step h w i) = true ->
  listening w = true \/ exists event, i = Mousedown event.
Proof.
  destruct i as [event | event | event | ms]; simpl.
  - intros _. right. now exists event.
  - destruct (listening w) eqn:Hl; [now left |]. intros H. congruence.
  - destruct (listening w) eqn:Hl; [now left |]. intros H. congruence.
  - destruct (elapse_keeps ms w) as (_ & _ & ->). now left.
Qed.

(** Moves made, plus one for a drag in progress, against mousedowns seen. *)
Lemma drags_bounded (h : Host) (inputs : list Input) (w : World) :
  length (moves (effects (run h w inputs))) +
    (if listening (run h w inputs) then 1 else 0)
  <= length (moves (effects w)) + (if listening w then 1 else 0) + count_mousedown inputs
  /\
  length (moves (effects (run h w inputs)))
  <= length (moves (effects w)) + count_mouseup inputs.
Proof.
  revert w. induction inputs as [| i inputs IH]; intros w; [simpl; lia |].
  change (run h w (i :: inputs)) with (run h (step h w i) inputs).
  destruct (IH (step h w i)) as [IH1 IH2].
  set (w' := run h (step h w i) inputs) in *.
  destruct (moves_step h w i) as [Hm | (event & p & j & -> & Hl & Hl' & Hm)].
  - rewrite Hm in IH1, IH2.
    assert (Hd : (if listening (step h w i) then 1 else 0) + count_mousedown inputs
                 <= (if listening w then 1 else 0) + count_mousedown (i :: inputs)).
    { destruct (listening (step h w i)) eqn:Hs.
      - destruct (listening_step h w i Hs) as [-> | [event ->]];
          [destruct i |]; cbn [count_mousedown]; lia.
      - destruct i; cbn [count_mousedown]; lia. }
    assert (Hu : count_mouseup inputs <= count_mouseup (i :: inputs))
      by (destruct i; cbn [count_mouseup]; lia).
    lia.
  - rewrite Hm, length_app in IH1, IH2. rewrite Hl' in IH1. rewrite Hl.
    cbn [count_mousedown count_mouseup length] in *. lia.
Qed.

(** X10: the feature never asks the tree for more moves than it has seen
    drags: in any run from construction the number of [tree.move] calls is
    at most the number of mousedown events and at most the number of
    mouseup events. *)
Theorem X10_moves_bounded_by_drags (h : Host) (dom : ClassStore) (o : Options)
    (inputs : list Input) :
  length (moves (effects (run h (init dom o) inputs))) <= count_mousedown inputs /\
  length (moves (effects (run h (init dom o) inputs))) <= count_mouseup inputs.
Proof.
  destruct (drags_bounded h inputs (init dom o)) as [H1 H2]. simpl in H1, H2.
  split; [| exact H2].
  destruct (listening (run h (init dom o) inputs)); lia.
Qed.

(** ** What is picked up is what gets moved *)

Lemma holding_step (h : Host) (w : World) (i : Input) :
  between i -> listening w = true ->
  listening (step h w i) = true /\
  currentNodeId (self (step h w i)) = currentNodeId (self w).
Proof.
  intros Hb Hl. destruct i as [event | event | event | ms]; simpl in *; try contradiction.
  - rewrite Hl. destruct (effects_onMousemove h event w) as [_ ->].
    now destruct (frame_onMousemove h event w) as [-> _].
  - now destruct (elapse_keeps ms w) as (-> & _ & ->).
Qed.

Lemma holding_run (h : Host) (mids : list Input) (w : World) :
  Forall between mids -> listening w = true ->
  listening (run h w mids) = true /\
  currentNodeId (self (run h w mids)) = currentNodeId (self w).
Proof.
  revert w. induction mids as [| i mids IH]; intros w Hall Hl; [now split |].
  apply Forall_cons in Hall as [Hi Hall]. simpl.
  destruct (holding_step h w i Hi Hl) as [Hl1 Hc1].
  destruct (IH (step h w i) Hall Hl1) as [Hl2 Hc2]. split; congruence.
Qed.

Lemma run_app (h : Host) (w : World) (l1 l2 : list Input) :
  run h w (l1 ++ l2) = run h (run h w l1) l2.
Proof. unfold run. apply fold_left_app. Qed.

(** X11: the node given to [tree.move] at the drop is the node under the
    pointer at the mousedown that started the drag, whatever move samples
    and delays came in between. *)
Theorem X11_moved_node_is_picked_node (h : Host) (w : World) (down up : MouseEvent)
    (mids : list Input) :
  isRightButton down || _isNotDraggable h w (target down) || isEditing h = false ->
  listening (step h w (Mousedown down)) = true ->
  Forall between mids ->
  exists p i,
    last (moves (effects (run h w (Mousedown down :: mids ++ [Mouseup up])))) =
    Some (getNodeIdFromElement h (target down), p, i).
Proof.
  intros Hok Hl Hmid.
  assert (Hc : currentNodeId (self (step h w (Mousedown down))) =
               getNodeIdFromElement h (target down)).
  { simpl. unfold _onMousedown. rewrite Hok. simpl.
    now destruct (useHelper (self w)); [destruct (nodeText h _) |]. }
  change (run h w (Mousedown down :: mids ++ [Mouseup up]))
    with (run h (step h w (Mousedown down)) (mids ++ [Mouseup up])).
  rewrite run_app.
  destruct (holding_run h mids _ Hmid Hl) as [Hl2 Hc2].
  set (w2 := run h (step h w (Mousedown down)) mids) in *.
  change (run h w2 [Mouseup up]) with (step h w2 (Mouseup up)).
  simpl. rewrite Hl2, effects_onMouseup, moves_snoc_move, last_snoc.
  rewrite Hc2, Hc. eauto.
Qed.

Lemma X11_moved_node_is_picked_node_witness :
  exists p i,
    last (moves (effects (run demoHost (init ∅ sortableOptions)
                            (Mousedown (pointer "c" 10 50)
                             :: [Mousemove (pointer "a-text" 10 10); Elapse 1600;
                                 Mousemove (pointer "b" 10 39)]
                             ++ [Mouseup (pointer "b" 10 39)])))) =
    Some (getNodeIdFromElement demoHost (target (pointer "c" 10 50)), p, i).
Proof.
  apply (X11_moved_node_is_picked_node demoHost (init ∅ sortableOptions)
           (pointer "c" 10 50) (pointer "b" 10 39)).
  - reflexivity.
  - reflexivity.
  - repeat constructor.
Defined.

(** ** Timers: entering and leaving a hover *)

Lemma filter_all (P : Timer -> Prop) `{!forall x, Decision (P x)} (l : list Timer) :
  Forall P l -> filter P l = l.
Proof.
  induction 1 as [| x l Hx Hl IH]; [reflexivity |].
  rewrite filter_cons_True by exact Hx. now rewrite IH.
Qed.

Lemma fresh_inv_applyMoveAction (h : Host) (nodeId : string) (mouse : MousePos)
    (w : World) :
  fresh_inv w -> fresh_inv (_applyMoveAction h nodeId mouse w).
Proof.
  intros Hinv. unfold _applyMoveAction.
  destruct (getElementById h (JStr nodeId)) as [el |]; [| exact Hinv].
  match goal with |- fresh_inv (if isSortable (self ?x) then _ else _) =>
    assert (Hx : fresh_inv x);
    [| destruct (isSortable (self x)); [| exact Hx];
       match goal with |- context [_drawBoundaryLine _ _ ?b _] => now destruct b end]
  end.
  destruct (_ && _).
  - unfold _hover. destruct (isLeaf h nodeId); [exact Hinv |].
    intros tm. simpl. rewrite elem_of_app, list_elem_of_singleton.
    intros [Hin | ->]; [| simpl; lia]. apply Hinv in Hin. simpl in Hin. lia.
  - destruct (_ || _); [| exact Hinv].
    unfold _unhover. destruct (timer (self w)) as [t |]; [| exact Hinv].
    intros tm. simpl. rewrite list_elem_of_filter. intros [_ Hin]. now apply Hinv.
Qed.

Lemma fresh_inv_step (h : Host) (w : World) (i : Input) :
  fresh_inv w -> fresh_inv (step h w i).
Proof.
  intros Hinv. destruct i as [event | event | event | ms]; simpl.
  - unfold _onMousedown. destruct (_ || _); [exact Hinv |]. simpl.
    now destruct (useHelper (self w)); [destruct (nodeText h _) |].
  - destruct (listening w); [| exact Hinv]. unfold _onMousemove.
    destruct (useHelper (self w)); simpl; [| exact Hinv].
    set (w1 := _changeHelperPosition _ _ _).
    assert (H1 : fresh_inv w1).
    { subst w1. unfold fresh_inv, _changeHelperPosition, _setClassNameOnDragItem.
      simpl. exact Hinv. }
    destruct (getNodeIdFromElement h (target event)) as [| | s]; try exact H1.
    destruct (truthy (JStr s)); [| exact H1].
    now apply fresh_inv_applyMoveAction.
  - destruct (listening w); [| exact Hinv]. unfold fresh_inv.
    destruct (timers_onMouseup h event w) as [-> _].
    unfold _onMouseup, _reset, _setClassNameOnDragItem. simpl.
    destruct (isSortable (self w)); simpl; destruct (hoveredElement (self w)); exact Hinv.
  - induction ms as [| ms IH]; [exact Hinv |]. simpl.
    intros tm. destruct (tick_keeps (Nat.iter ms tick w)) as (_ & _ & _ & ->).
    unfold tick.
    match goal with |- context [fold_left ?f ?l ?x] =>
      destruct (fold_emit_keeps l x) as (_ & _ & -> & _) end.
    simpl. rewrite list_elem_of_filter. intros [_ Hin]. now apply IH.
Qed.

Lemma hover_unhover_timers (h : Host) (nodeId : string) (w : World) :
  isLeaf h nodeId = false -> fresh_inv w ->
  timers (_unhover (_hover h nodeId w)) = timers w.
Proof.
  intros Hleaf Hinv. unfold _hover. rewrite Hleaf. unfold _unhover. simpl.
  rewrite filter_app. rewrite filter_cons_False by (simpl; tauto).
  rewrite filter_nil, app_nil_r. apply filter_all.
  apply Forall_forall. intros tm Hin. apply Hinv in Hin. lia.
Qed.

(** X12: at any moment of any run, entering the hover of a node with
    children and leaving it again leaves the table of pending timers as it
    was: leaving cancels exactly the timer that entering armed. *)
Theorem X12_hover_unhover_restores_timers (h : Host) (dom : ClassStore) (o : Options)
    (inputs : list Input) (nodeId : string) :
  isLeaf h nodeId = false ->
  timers (_unhover (_hover h nodeId (run h (init dom o) inputs))) =
  timers (run h (init dom o) inputs).
Proof.
  intros Hleaf. apply hover_unhover_timers; [exact Hleaf |].
  apply (run_invariant fresh_inv h); [apply fresh_inv_step |].
  intros tm Hin. now apply not_elem_of_nil in Hin.
Qed.

Lemma X12_hover_unhover_restores_timers_witness :
  timers (_unhover (_hover demoHost "a" (run demoHost (init ∅ noOptions) quickDrop))) =
  timers (run demoHost (init ∅ noOptions) quickDrop).
Proof.
  apply (X12_hover_unhover_restores_timers demoHost ∅ noOptions quickDrop "a").
  reflexivity.
Defined.

(** ** Timers: leaves *)

Lemma quiet_step (h : Host) (w : World) (i : Input) :
  (forall n, isLeaf h n = true) ->
  timers w = [] /\ opened (effects w) = [] ->
  timers (step h w i) = [] /\ opened (effects (step h w i)) = [].
Proof.
  intros Hleaf [Ht He]. destruct i as [event | event | event | ms]; simpl.
  - rewrite effects_onMousedown. split; [| exact He].
    unfold _onMousedown. destruct (_ || _); [exact Ht |]. simpl.
    now destruct (useHelper (self w)); [destruct (nodeText h _) |].
  - destruct (listening w); [| now split].
    destruct (effects_onMousemove h event w) as [-> _]. split; [| exact He].
    unfold _onMousemove. destruct (useHelper (self w)); simpl; [| exact Ht].
    set (w1 := _changeHelperPosition _ _ _).
    assert (H1 : timers w1 = []).
    { subst w1. unfold _changeHelperPosition, _setClassNameOnDragItem. simpl. exact Ht. }
    destruct (getNodeIdFromElement h (target event)) as [| | s]; try exact H1.
    destruct (truthy (JStr s)); [| exact H1].
    unfold _applyMoveAction.
    destruct (getElementById h (JStr s)) as [el |]; [| exact H1].
    match goal with |- timers (if isSortable (self ?x) then _ else _) = _ =>
      assert (Hx : timers x = []);
      [| destruct (isSortable (self x)); [| exact Hx];
         match goal with |- context [_drawBoundaryLine _ _ ?b _] => now destruct b end]
    end.
    destruct (_ && _).
    + unfold _hover. now rewrite Hleaf.
    + destruct (_ || _); [| exact H1]. unfold _unhover, clearTimeout.
      destruct (timer (self w1));
        cbn [timers set_timers update set_self set_classes]; now rewrite H1.
  - destruct (listening w); [| now split].
    destruct (timers_onMouseup h event w) as [-> _]. split; [exact Ht |].
    rewrite effects_onMouseup. unfold opened in *. rewrite omap_app. simpl.
    now rewrite app_nil_r.
  - destruct (elapse_no_timers ms w Ht) as [-> ->]. now split.
Qed.

(** X13: in a tree where every node is a leaf the feature never calls
    [tree.open] and never has a timer pending. *)
Theorem X13_leaves_never_open (h : Host) (dom : ClassStore) (o : Options)
    (inputs : list Input) :
  (forall n, isLeaf h n = true) ->
  timers (run h (init dom o) inputs) = [] /\
  opened (effects (run h (init dom o) inputs)) = [].
Proof.
  intros Hleaf.
  apply (run_invariant (fun w => timers w = [] /\ opened (effects w) = []) h).
  - intros w i. now apply quiet_step.
  - now split.
Qed.

Lemma X13_leaves_never_open_witness :
  timers (run leafHost (init ∅ noOptions) hoverAndStay) = [] /\
  opened (effects (run leafHost (init ∅ noOptions) hoverAndStay)) = [].
Proof.
  apply (X13_leaves_never_open leafHost ∅ noOptions hoverAndStay).
  intros n. reflexivity.
Defined.

(** ** Timers: the delay *)










(** X15: a timer calls [tree.open] at most once: at every moment of every
    run the [tree.open] calls made and the timers still pending are
    together at most as many as the timer handles handed out since
    construction. *)
Theorem X15_opens_bounded_by_timers (h : Host) (dom : ClassStore) (o : Options)
    (inputs : list Input) :
  length (opened (effects (run h (init dom o) inputs)))
    + length (timers (run h (init dom o) inputs))
    + nextHandle (init dom o)
  <= nextHandle (run h (init dom o) inputs).
Proof.
  assert (H : armed_inv (run h (init dom o) inputs)).
  { apply (run_invariant armed_inv h); [apply armed_inv_step |].
    unfold armed_inv. simpl. lia. }
  unfold armed_inv in H. simpl. lia.
Qed.

(** ** The target of a drop *)

(** X16: the node a drop is resolved against is the node under the
    pointer when there is one; otherwise it is one of the root-level
    children (the first for zone top, the last otherwise); it is
    [undefined] only when the tree has no root-level child. *)
Theorem X16_target_is_hit_or_root_child (h : Host) (d : Draggable) (tgt : Element) :
  (truthy (getNodeIdFromElement h tgt) = true /\
   _getTargetNodeId h d tgt = getNodeIdFromElement h tgt) \/
  (truthy (getNodeIdFromElement h tgt) = false /\
   exists c, c ∈ getChildIds h (getRootNodeId h) /\ _getTargetNodeId h d tgt = JStr c) \/
  (truthy (getNodeIdFromElement h tgt) = false /\
   getChildIds h (getRootNodeId h) = [] /\ _getTargetNodeId h d tgt = JUndefined).
Proof.
  destruct (truthy (getNodeIdFromElement h tgt)) eqn:Ht.
  - left. split; [reflexivity |]. now apply getTargetNodeId_hit.
  - right. rewrite (getTargetNodeId_background h d tgt Ht).
    destruct (getChildIds h (getRootNodeId h)) as [| c0 l0] eqn:Hc.
    + right. split; [reflexivity |]. split; [reflexivity |].
      destruct (bool_decide _); apply array_at_empty.
    + left. split; [reflexivity |]. destruct (bool_decide _).
      * exists c0. split; [apply list_elem_of_here | reflexivity].
      * rewrite <- Hc.
        assert (Hl : exists l x, getChildIds h (getRootNodeId h) = l ++ [x]).
        { rewrite Hc. clear Hc. revert c0.
          induction l0 as [| y l0 IH]; intros c0; [now exists [], c0 |].
          destruct (IH y) as (l & x & Hlx). exists (c0 :: l), x. simpl. now rewrite Hlx. }
        destruct Hl as (l & x & ->). exists x. split.
        -- apply elem_of_app. right. apply list_elem_of_here.
        -- apply array_at_last.
Qed.

(** X17: the index -1 is read as "append" wherever it comes from.  With
    zone top and a target for which the tree reports index -1, the drop is
    handed to the tree as a move into the target node itself, with index
    -1, not as a move next to it under its parent. *)
Theorem X17_index_minus_one_is_append (h : Host) (w : World) (event : MouseEvent) :
  movingLineType (self w) = Some top ->
  getNodeIndex h (_getTargetNodeId h (self w) (target event)) = (-1)%Z ->
  effects (_onMouseup h event w) =
  effects w ++ [TreeMove (currentNodeId (self w))
                  (_getTargetNodeId h (self w) (target event)) (-1)].
Proof.
  intros Hz Hi. rewrite effects_onMouseup. unfold _getIndexToInsert.
  rewrite Hz. simpl. now rewrite Hi.
Qed.

Lemma X17_index_minus_one_is_append_witness :
  effects (_onMouseup lostHost (pointer "b" 10 22) over_a_top) =
  effects over_a_top ++ [TreeMove (JStr "c") (JStr "b") (-1)].
Proof.
  apply (X17_index_minus_one_is_append lostHost over_a_top (pointer "b" 10 22));
    reflexivity.
Defined.

(** ** The helper element *)

Lemma helperStyle_onMousemove (h : Host) (event : MouseEvent) (w : World) :
  helperStyle (_onMousemove h event w) =
  if useHelper (self w)
  then mkStyle DisplayDefault
         (pos_y (mousePos event) - rect_top (rootRect h) + pos_y (helperPos (self w)))
         (pos_x (mousePos event) - rect_left (rootRect h) + pos_x (helperPos (self w)))
  else helperStyle w.
Proof.
  unfold _onMousemove. destruct (useHelper (self w)); simpl; [| reflexivity].
  set (w1 := _changeHelperPosition _ _ _).
  assert (H1 : helperStyle w1 =
               mkStyle DisplayDefault
                 (pos_y (mousePos event) - rect_top (rootRect h) + pos_y (helperPos (self w)))
                 (pos_x (mousePos event) - rect_left (rootRect h)
                  + pos_x (helperPos (self w)))).
  { subst w1. unfold _changeHelperPosition. cbn [helperStyle set_helperStyle].
    now rewrite self_setClassNameOnDragItem. }
  destruct (getNodeIdFromElement h (target event)) as [| | s]; try exact H1.
  destruct (truthy (JStr s)); [| exact H1].
  now destruct (frame_applyMoveAction h s (mousePos event) w1) as (_ & -> & _).
Qed.

Lemma helper_hidden_step (h : Host) (w : World) (i : Input) :
  useHelper (self w) = false ->
  display (helperStyle w) = DisplayNone ->
  display (helperStyle (step h w i)) = DisplayNone.
Proof.
  intros Hu Hd. destruct i as [event | event | event | ms]; simpl.
  - unfold _onMousedown. destruct (_ || _); [exact Hd |]. simpl. now rewrite Hu.
  - destruct (listening w); [| exact Hd]. now rewrite helperStyle_onMousemove, Hu.
  - destruct (listening w); [| exact Hd]. apply onMouseup_fields.
  - now destruct (styles_elapse ms w) as [-> _].
Qed.

(** X18: during a drag with [useHelper] on, every move sample puts the
    helper at the pointer position relative to the root element plus the
    configured offset and shows it, whether or not a node is under the
    pointer; with [useHelper] off the helper is never shown. *)
Theorem X18_helper_follows_pointer (h : Host) (dom : ClassStore) (o : Options)
    (inputs : list Input) (event : MouseEvent) :
  (listening (run h (init dom o) inputs) = true ->
   useHelper (self (init dom o)) = true ->
   helperStyle (step h (run h (init dom o) inputs) (Mousemove event)) =
   mkStyle DisplayDefault
     (pos_y (mousePos event) - rect_top (rootRect h)
      + pos_y (helperPos (self (init dom o))))
     (pos_x (mousePos event) - rect_left (rootRect h)
      + pos_x (helperPos (self (init dom o))))) /\
  (useHelper (self (init dom o)) = false ->
   display (helperStyle (run h (init dom o) inputs)) = DisplayNone).
Proof.
  pose proof (config_run h inputs (init dom o)) as Hc. unfold config in Hc.
  split.
  - intros Hl Hu. simpl step. rewrite Hl, helperStyle_onMousemove.
    assert (Hu' : useHelper (self (run h (init dom o) inputs)) = true) by congruence.
    assert (Hp : helperPos (self (run h (init dom o) inputs)) = helperPos (self (init dom o)))
      by congruence.
    now rewrite Hu', Hp.
  - intros Hu.
    assert (H : useHelper (self (run h (init dom o) inputs)) = false /\
                display (helperStyle (run h (init dom o) inputs)) = DisplayNone).
    { apply (run_invariant
               (fun w => useHelper (self w) = false /\
                         display (helperStyle w) = DisplayNone) h).
      - intros w i [Hw Hd]. split; [| now apply helper_hidden_step].
        pose proof (config_step h w i) as Hc'. unfold config in Hc'. congruence.
      - now split. }
    exact (proj2 H).
Qed.

Lemma X18_helper_follows_pointer_witness :
  helperStyle (step demoHost
                 (run demoHost (init ∅ sortableOptions) [Mousedown (pointer "c" 10 50)])
                 (Mousemove (pointer "page" 30 70))) =
  mkStyle DisplayDefault
    (70 - rect_top (rootRect demoHost) + pos_y (helperPos (self (init ∅ sortableOptions))))
    (30 - rect_left (rootRect demoHost) + pos_x (helperPos (self (init ∅ sortableOptions))))
  /\
  display (helperStyle (run demoHost (init ∅ noHelperOptions)
                          [Mousedown (pointer "c" 10 50);
                           Mousemove (pointer "a-text" 10 10)])) = DisplayNone.
Proof.
  split.
  - apply (proj1 (X18_helper_follows_pointer demoHost ∅ sortableOptions
                    [Mousedown (pointer "c" 10 50)] (pointer "page" 30 70)));
      reflexivity.
  - apply (proj2 (X18_helper_follows_pointer demoHost ∅ noHelperOptions
                    [Mousedown (pointer "c" 10 50); Mousemove (pointer "a-text" 10 10)]
                    (pointer "page" 30 70))).
    reflexivity.
Defined.

(** ** No highlight is left behind *)

(** X19: when no element carried the hover class at construction and the
    hover class is not the class that marks the dragged item, then
    whenever no drag is in progress no element carries the hover class. *)
Theorem X19_no_hover_class_when_idle (h : Host) (dom : ClassStore) (o : Options)
    (inputs : list Input) (e : Element) :
  (forall e', hasClass dom e' (hoverClassName (self (init dom o))) = false) ->
  hoverClassName (self (init dom o)) <> dragItemClassName ->
  listening (run h (init dom o) inputs) = false ->
  hasClass (classes (run h (init dom o) inputs)) e
    (hoverClassName (self (run h (init dom o) inputs))) = false.
Proof.
  intros Hdom Hne Hl.
  pose proof (hover_inv_run h inputs (init dom o) Hne (hover_inv_init dom o Hdom)) as Hinv.
  assert (Hidle : idle_inv (run h (init dom o) inputs)).
  { apply (run_invariant idle_inv h); [apply idle_inv_step |]. intros _. repeat split. }
  destruct (Hidle Hl) as (Hh & _).
  destruct (hasClass _ e _) eqn:Hc; [| reflexivity].
  apply Hinv in Hc. congruence.
Qed.

Lemma X19_no_hover_class_when_idle_witness :
  hasClass (classes (run demoHost (init ∅ sortableOptions) quickDrop)) "a"
    (hoverClassName (self (run demoHost (init ∅ sortableOptions) quickDrop))) = false.
Proof.
  apply (X19_no_hover_class_when_idle demoHost ∅ sortableOptions quickDrop "a").
  - intros e'. apply hasClass_empty.
  - discriminate.
  - vm_compute. reflexivity.
Defined.

(** ** Construction and destruction *)

Lemma rootStyle_deliver (h : Host) (p : Page) (i : Input) :
  rootStyle (deliver h p i) = rootStyle p /\
  userSelectPropertyKey (deliver h p i) = userSelectPropertyKey p /\
  userSelectPropertyValue (deliver h p i) = userSelectPropertyValue p /\
  selectstartPrevented (deliver h p i) = selectstartPrevented p.
Proof. destruct i; simpl; try destruct (mousedownBound p); repeat split. Qed.

Lemma rootStyle_delivered (h : Host) (inputs : list Input) (p : Page) :
  rootStyle (fold_left (deliver h) inputs p) = rootStyle p /\
  userSelectPropertyKey (fold_left (deliver h) inputs p) = userSelectPropertyKey p /\
  userSelectPropertyValue (fold_left (deliver h) inputs p) = userSelectPropertyValue p /\
  selectstartPrevented (fold_left (deliver h) inputs p) = selectstartPrevented p.
Proof.
  revert p. induction inputs as [| i inputs IH]; intros p; [repeat split |].
  simpl. destruct (IH (deliver h p i)) as (-> & -> & -> & ->). apply rootStyle_deliver.
Qed.

Lemma setStyle_restore (key : string) (st : gmap string string) :
  setStyle key (st !! key) (setStyle key (Some "none") st) = st.
Proof.
  unfold setStyle. destruct (st !! key) as [v |] eqn:Hk.
  - rewrite insert_insert_eq. now apply insert_id.
  - rewrite delete_insert_eq. now apply delete_id.
Qed.

(** X20: text selection is switched off for exactly the life of the
    feature.  From construction on, whatever is delivered, the selection
    property of the root element is "none" and selectstart is prevented;
    [destroy] puts the style of the root element back exactly as it was
    before construction and stops preventing selectstart.  This needs a
    selection property to have been found: with none, the value written
    under the name "undefined" is never taken back. *)
Theorem X20_text_selection_round_trip (h : Host) (selectKey : jsid) (dom : ClassStore)
    (st : gmap string string) (o : Options) (inputs : list Input) :
  rootStyle (fold_left (deliver h) inputs (construct selectKey dom st o))
    !! propertyName selectKey = Some "none" /\
  selectstartPrevented (fold_left (deliver h) inputs (construct selectKey dom st o)) = true /\
  selectstartPrevented
    (destroy (fold_left (deliver h) inputs (construct selectKey dom st o))) = false /\
  (truthy selectKey = true ->
   rootStyle (destroy (fold_left (deliver h) inputs (construct selectKey dom st o))) = st) /\
  (truthy selectKey = false ->
   rootStyle (destroy (fold_left (deliver h) inputs (construct selectKey dom st o)))
   = <[propertyName selectKey := "none"]> st).
Proof.
  destruct (rootStyle_delivered h inputs (construct selectKey dom st o))
    as (Hs & Hk & Hv & Hp).
  split; [| split; [| split; [| split]]].
  - rewrite Hs. simpl. apply lookup_insert_eq.
  - now rewrite Hp.
  - reflexivity.
  - intros Ht. unfold destroy, _detachMousedown, _restoreTextSelection.
    cbn [rootStyle userSelectPropertyKey userSelectPropertyValue].
    rewrite Hs, Hk, Hv. simpl. rewrite Ht. apply setStyle_restore.
  - intros Ht. unfold destroy, _detachMousedown, _restoreTextSelection.
    cbn [rootStyle userSelectPropertyKey userSelectPropertyValue].
    rewrite Hs, Hk. simpl. now rewrite Ht.
Qed.

Lemma X20_text_selection_round_trip_witness :
  rootStyle (destroy (fold_left (deliver demoHost) quickDrop
                        (construct (JStr "userSelect") ∅ {["color" := "red"]} noOptions)))
  = {["color" := "red"]}.
Proof.
  apply (X20_text_selection_round_trip demoHost (JStr "userSelect") ∅
           {["color" := "red"]} noOptions quickDrop).
  reflexivity.
Defined.

(** ** More on drops *)

(** X21: in any run, when the mouse is released while a node is hovered,
    the move handed to the tree has index -1 and names the resolved target
    itself as the new parent: a drop made under a highlight never lands
    between siblings. *)
Theorem X21_drop_while_hovered_appends (h : Host) (dom : ClassStore) (o : Options)
    (inputs : list Input) (event : MouseEvent) :
  listening (run h (init dom o) inputs) = true ->
  is_Some (hoveredElement (self (run h (init dom o) inputs))) ->
  effects (step h (run h (init dom o) inputs) (Mouseup event)) =
  effects (run h (init dom o) inputs) ++
    [TreeMove (currentNodeId (self (run h (init dom o) inputs)))
       (_getTargetNodeId h (self (run h (init dom o) inputs)) (target event)) (-1)].
Proof.
  intros Hl Hh. pose proof (zone_inv_run h dom o inputs) as Hz.
  simpl step. rewrite Hl, effects_onMouseup. unfold _getIndexToInsert.
  rewrite Hz by now right. reflexivity.
Qed.

Lemma X21_drop_while_hovered_appends_witness :
  effects (step demoHost
             (run demoHost (init ∅ sortableOptions)
                [Mousedown (pointer "c" 10 50); Mousemove (pointer "a-text" 10 10)])
             (Mouseup (pointer "b" 10 21))) =
  effects (run demoHost (init ∅ sortableOptions)
             [Mousedown (pointer "c" 10 50); Mousemove (pointer "a-text" 10 10)]) ++
    [TreeMove
       (currentNodeId
          (self (run demoHost (init ∅ sortableOptions)
                   [Mousedown (pointer "c" 10 50); Mousemove (pointer "a-text" 10 10)])))
       (_getTargetNodeId demoHost
          (self (run demoHost (init ∅ sortableOptions)
                   [Mousedown (pointer "c" 10 50); Mousemove (pointer "a-text" 10 10)]))
          (target (pointer "b" 10 21)))
       (-1)].
Proof.
  apply (X21_drop_while_hovered_appends demoHost ∅ sortableOptions
           [Mousedown (pointer "c" 10 50); Mousemove (pointer "a-text" 10 10)]
           (pointer "b" 10 21)).
  - reflexivity.
  - vm_compute. eauto.
Defined.

(** X22: the two sides of a gap between siblings agree: a drop in the
    bottom zone of a node and a drop in the top zone of its next sibling
    hand the same parent and the same index to the tree. *)
Theorem X22_adjacent_zones_agree (h : Host) (w1 w2 : World) (e1 e2 : MouseEvent)
    (X Y : string) :
  getNodeIdFromElement h (target e1) = JStr X -> X <> EmptyString ->
  getNodeIdFromElement h (target e2) = JStr Y -> Y <> EmptyString ->
  movingLineType (self w1) = Some bottom ->
  movingLineType (self w2) = Some top ->
  (0 <= getNodeIndex h (JStr X))%Z ->
  getNodeIndex h (JStr Y) = (getNodeIndex h (JStr X) + 1)%Z ->
  getParentId h (JStr Y) = getParentId h (JStr X) ->
  lastDecision (effects (_onMouseup h e1 w1)) =
  lastDecision (effects (_onMouseup h e2 w2)).
Proof.
  intros H1 HX H2 HY Hb Ht Hi Hn Hp.
  rewrite !effects_onMouseup, !lastDecision_snoc.
  rewrite !getTargetNodeId_hit by (rewrite ?H1, ?H2; now apply truthy_JStr).
  rewrite H1, H2. unfold _getIndexToInsert. rewrite Hb, Ht. simpl. rewrite Hn, Hp.
  destruct (Z.eqb_spec (getNodeIndex h (JStr X) + 1) (-1)); [lia | reflexivity].
Qed.

Lemma X22_adjacent_zones_agree_witness :
  lastDecision (effects (_onMouseup demoHost (pointer "a" 10 19) over_b_bottom)) =
  lastDecision (effects (_onMouseup demoHost (pointer "b" 10 21) over_a_top)).
Proof.
  apply (X22_adjacent_zones_agree demoHost over_b_bottom over_a_top
           (pointer "a" 10 19) (pointer "b" 10 21) "a" "b");
    try reflexivity; try discriminate.
Defined.

(** ** Drags that cannot start *)

Lemma refused_step (h : Host) (w : World) (i : Input) :
  isEditing h = true \/ right_button_down i ->
  listening w = false /\ timers w = [] ->
  self (step h w i) = self w /\ classes (step h w i) = classes w /\
  effects (step h w i) = effects w /\
  listening (step h w i) = false /\ timers (step h w i) = [].
Proof.
  intros Hno [Hl Ht]. destruct i as [event | event | event | ms]; simpl.
  - unfold _onMousedown.
    assert (Hr : isRightButton event || _isNotDraggable h w (target event) || isEditing h
                 = true).
    { destruct Hno as [-> | Hr]; [apply orb_true_r |]. simpl in Hr. now rewrite Hr. }
    rewrite Hr. repeat split; assumption.
  - rewrite Hl. repeat split; assumption.
  - rewrite Hl. repeat split; assumption.
  - destruct (elapse_keeps ms w) as (-> & -> & ->).
    destruct (elapse_no_timers ms w Ht) as [-> ->]. repeat split; assumption.
Qed.

(** X23: while a label is being edited, or when every mousedown comes
    from the right button, no drag starts: whatever else is delivered, the
    feature object and the classes stay as the constructor left them and
    the tree is never called. *)
Theorem X23_refused_mousedowns_do_nothing (h : Host) (dom : ClassStore) (o : Options)
    (inputs : list Input) :
  isEditing h = true \/ Forall right_button_down inputs ->
  self (run h (init dom o) inputs) = self (init dom o) /\
  classes (run h (init dom o) inputs) = dom /\
  effects (run h (init dom o) inputs) = [] /\
  listening (run h (init dom o) inputs) = false.
Proof.
  intros Hno.
  assert (H : forall w, listening w = false /\ timers w = [] ->
                self (run h w inputs) = self w /\ classes (run h w inputs) = classes w /\
                effects (run h w inputs) = effects w /\
                listening (run h w inputs) = false).
  { induction inputs as [| i inputs IH]; intros w Hw; [now destruct Hw |].
    assert (Hi : isEditing h = true \/ right_button_down i).
    { destruct Hno as [He | Hall]; [now left | right].
      now apply Forall_cons in Hall as [Hi _]. }
    assert (Hrest : isEditing h = true \/ Forall right_button_down inputs).
    { destruct Hno as [He | Hall]; [now left | right].
      now apply Forall_cons in Hall as [_ Hall]. }
    destruct (refused_step h w i Hi Hw) as (Hs & Hc & He & Hl & Ht).
    destruct (IH Hrest (step h w i) (conj Hl Ht)) as (Hs' & Hc' & He' & Hl').
    simpl. rewrite Hs', Hc', He', Hl'. repeat split; assumption. }
  destruct (H (init dom o)) as (Hs & Hc & He & Hl); [now split |].
  repeat split; assumption.
Qed.

Lemma X23_refused_mousedowns_do_nothing_witness :
  effects (run demoHost (init ∅ noOptions)
             [Mousedown (mkEvent "c" (mkPos 10 50) true);
              Mousemove (pointer "a-text" 10 10); Elapse 2000;
              Mouseup (pointer "a-text" 10 10)]) = [].
Proof.
  apply (X23_refused_mousedowns_do_nothing demoHost ∅ noOptions).
  right. repeat constructor.
Defined.
